(** * WildernessEncounterSim: dice notation, lookup tables and encounter resolution

    A shallow embedding of [src/python/dice.py], [src/python/table.py] and
    [src/python/wilderness_encounter_sim.py].

    - Python [int] is [Z]; [//] is [Z.div] and [%] is [Z.modulo] (both round
      towards minus infinity, as Python does).
    - Python [str] is [string]; the model covers the strings whose code points
      are below 256.  In that range the decimal digits of [\d], [int()] and
      [float()] are exactly ['0'..'9'].
    - Python [float] is IEEE binary64, modelled by the Standard Library's
      [spec_float] at precision 53 and maximal exponent 1024.
    - Exceptions are values of [exn]; code that can raise returns [res].
    - The process-wide generator [Dice._random] and the diagnostic channel
      [sys.stderr] live in an explicit [world] threaded through the
      computations that use them. *)

From Stdlib Require Import ZArith List String Ascii Bool Lia.
From Stdlib Require Import Floats.SpecFloat.
Import ListNotations.

Local Open Scope string_scope.
Local Open Scope Z_scope.

(* ================================================================== *)
(** * Python built-ins used by the program *)

Module Py.

(** ** Exceptions and fallible results *)

Inductive exn : Type :=
| ValueError (msg : string)
| IndexError (msg : string).

Inductive res (A : Type) : Type :=
| Ok (a : A)
| Raise (e : exn).
Arguments Ok {A} a.
Arguments Raise {A} e.

Definition res_bind {A B} (r : res A) (k : A -> res B) : res B :=
  match r with
  | Ok a => k a
  | Raise e => Raise e
  end.

(** ** Characters *)

Definition code (c : ascii) : Z := Z.of_N (N_of_ascii c).

Definition is_digit (c : ascii) : bool := (48 <=? code c) && (code c <=? 57).

(** The class [[1-9]]. *)
Definition is_digit19 (c : ascii) : bool := (49 <=? code c) && (code c <=? 57).

(** The blanks that [int()] and [float()] skip around a literal, among the
    code points below 256: TAB..CR, SPACE, NEL and NBSP. *)
Definition is_space (c : ascii) : bool :=
  let n := code c in
  ((9 <=? n) && (n <=? 13)) || (n =? 32) || (n =? 133) || (n =? 160).

Definition digit_val (c : ascii) : Z := code c - 48.

Definition digit_chr (d : Z) : ascii := ascii_of_N (Z.to_N (48 + d)).

(** ** [len], indexing and slicing *)

Definition len {A} (l : list A) : Z := Z.of_nat (List.length l).

(** [l[i]]: a negative index counts from the end; out of range raises. *)
Definition getitem {A} (l : list A) (i : Z) : res A :=
  let j := if i <? 0 then len l + i else i in
  if j <? 0 then Raise (IndexError "list index out of range")
  else match nth_error l (Z.to_nat j) with
       | Some a => Ok a
       | None => Raise (IndexError "list index out of range")
       end.

(** [s[1:]] *)
Definition tail1 (s : string) : string :=
  match s with
  | EmptyString => EmptyString
  | String _ t => t
  end.

(** [s.startswith(c)] for a one-character [c] *)
Definition startswith (s : string) (c : ascii) : bool :=
  match s with
  | EmptyString => false
  | String a _ => Ascii.eqb a c
  end.

(** ** [str(n)] for an integer *)

Fixpoint str_digits (fuel : nat) (n : Z) (acc : string) : string :=
  match fuel with
  | O => acc
  | S f =>
      let acc' := String (digit_chr (n mod 10)) acc in
      if n / 10 =? 0 then acc' else str_digits f (n / 10) acc'
  end.

(** Decimal digits of [n >= 0], most significant first.  A number has no more
    decimal digits than binary digits, which bounds the recursion. *)
Definition str_nat (n : Z) : string :=
  str_digits (S (Z.to_nat (Z.log2 n))) n EmptyString.

Definition str (n : Z) : string :=
  if n <? 0 then String "-" (str_nat (- n)) else str_nat n.

(** ** [int(s)] for a string, base 10 *)

Fixpoint lstrip (s : string) : string :=
  match s with
  | EmptyString => EmptyString
  | String c t => if is_space c then lstrip t else s
  end.

Fixpoint rstrip (s : string) : string :=
  match s with
  | EmptyString => EmptyString
  | String c t =>
      match rstrip t with
      | EmptyString => if is_space c then EmptyString else String c EmptyString
      | t' => String c t'
      end
  end.

Definition strip (s : string) : string := rstrip (lstrip s).

(** Digits after the first one; single underscores may separate digits. *)
Fixpoint int_body (s : string) (after_underscore : bool) (acc : Z) : option Z :=
  match s with
  | EmptyString => if after_underscore then None else Some acc
  | String c t =>
      if is_digit c then int_body t false (10 * acc + digit_val c)
      else if Ascii.eqb c "_" && negb after_underscore then int_body t true acc
      else None
  end.

Definition int_unsigned (s : string) : option Z :=
  match s with
  | EmptyString => None
  | String c t => if is_digit c then int_body t false (digit_val c) else None
  end.

(** [int(s)]: surrounding white space is ignored, then an optional sign and
    the digits.  [None] stands for [ValueError]. *)
Definition int (s : string) : option Z :=
  match strip s with
  | EmptyString => None
  | String c t =>
      if Ascii.eqb c "+" then int_unsigned t
      else if Ascii.eqb c "-" then option_map Z.opp (int_unsigned t)
      else int_unsigned (String c t)
  end.

(** ** [float(s)] for a string *)

(** Python's [float] is IEEE binary64. *)
Definition prec : Z := 53.
Definition emax : Z := 1024.

(** The longest run of digits at the start of [s] and what follows it. *)
Fixpoint span_digits (s : string) : string * string :=
  match s with
  | EmptyString => (EmptyString, EmptyString)
  | String c t =>
      if is_digit c
      then let (ds, r) := span_digits t in (String c ds, r)
      else (EmptyString, s)
  end.

(** The number written by a run of digits. *)
Fixpoint digits_value (s : string) (acc : Z) : Z :=
  match s with
  | EmptyString => acc
  | String c t => digits_value t (10 * acc + digit_val c)
  end.

(** Underscores may only stand between two digits; they are removed before
    the literal is read.  [prev] is the character before [s]. *)
Fixpoint drop_underscores (s : string) (prev : ascii) : option string :=
  match s with
  | EmptyString => if Ascii.eqb prev "_" then None else Some EmptyString
  | String c t =>
      if Ascii.eqb c "_"
      then (if is_digit prev then drop_underscores t c else None)
      else if Ascii.eqb prev "_" && negb (is_digit c) then None
      else option_map (String c) (drop_underscores t c)
  end.

Definition lower (c : ascii) : ascii :=
  if (65 <=? code c) && (code c <=? 90)
  then ascii_of_N (Z.to_N (code c + 32)) else c.

Fixpoint lower_str (s : string) : string :=
  match s with
  | EmptyString => EmptyString
  | String c t => String (lower c) (lower_str t)
  end.

(** An optional sign: whether it is a minus, and what follows. *)
Definition opt_sign (s : string) : bool * string :=
  match s with
  | EmptyString => (false, s)
  | String c t =>
      if Ascii.eqb c "-" then (true, t)
      else if Ascii.eqb c "+" then (false, t)
      else (false, s)
  end.

(** The binary64 number nearest to [m * 10^e] (ties to even), for [m >= 0]. *)
Definition decimal_to_float (neg : bool) (m e : Z) : spec_float :=
  match m with
  | Zpos p =>
      if 0 <=? e
      then binary_round prec emax neg (Z.to_pos (Z.pos p * 10 ^ e)) 0
           
      else let '(mz, ez, lz) := SFdiv_core_binary prec emax (Z.pos p) 0 (10 ^ (- e)) 0 in
           binary_round_aux prec emax neg mz ez lz
  | _ => S754_zero neg
  end.

(** A literal without surrounding blanks and without underscores: a signed
    [inf], [infinity] or [nan] in any case, or digits with an optional point
    and an optional exponent. *)
Definition float_literal (s : string) : option spec_float :=
  let (neg, s1) := opt_sign s in
  let word := lower_str s1 in
  if String.eqb word "inf" || String.eqb word "infinity" then Some (S754_infinity neg)
  else if String.eqb word "nan" then Some S754_nan
  else
    let (ip, s2) := span_digits s1 in
    let (fp, s3) :=
      match s2 with
      | EmptyString => (EmptyString, s2)
      | String c t => if Ascii.eqb c "." then span_digits t else (EmptyString, s2)
      end in
    let m := digits_value (ip ++ fp) 0 in
    let scale := - Z.of_nat (String.length fp) in
    match (ip ++ fp)%string with
    | EmptyString => None
    | _ =>
        match s3 with
        | EmptyString => Some (decimal_to_float neg m scale)
        | String c t =>
            if Ascii.eqb c "e" || Ascii.eqb c "E" then
              let (eneg, t1) := opt_sign t in
              match span_digits t1 with
              | (EmptyString, _) => None
              | (ed, EmptyString) =>
                  let x := digits_value ed 0 in
                  Some (decimal_to_float neg m ((if eneg then - x else x) + scale))
              | _ => None
              end
            else None
        end
    end.

(** [float(s)]; [None] stands for [ValueError]. *)
Definition float (s : string) : option spec_float :=
  match drop_underscores s "000" with
  | Some s' => float_literal (strip s')
  | None => None
  end.

(** The float [1.0] and the comparison [x <= y]. *)
Definition one : spec_float := SFone prec emax.
Definition float_le (x y : spec_float) : bool := SFleb x y.

End Py.

(* ================================================================== *)
(** * The world: random generator and diagnostic channel *)

(** [tape] is the supply of the generator, [pos] the number of draws made so
    far and [stderr] the lines printed to [sys.stderr], oldest first. *)
Record world : Type := mkWorld {
  tape : nat -> Z;
  pos : nat;
  stderr : list string
}.

(** Computations that read the generator, print diagnostics or raise.  The
    world survives an exception, as the Python objects do. *)
Definition M (A : Type) : Type := world -> Py.res A * world.

Definition ret {A} (a : A) : M A := fun w => (Py.Ok a, w).

Definition raise {A} (e : Py.exn) : M A := fun w => (Py.Raise e, w).

Definition bind {A B} (m : M A) (k : A -> M B) : M B :=
  fun w =>
    match m w with
    | (Py.Ok a, w') => k a w'
    | (Py.Raise e, w') => (Py.Raise e, w')
    end.

Definition lift {A} (r : Py.res A) : M A := fun w => (r, w).

(** [print(line, file=sys.stderr)] *)
Definition eprint (line : string) : M unit :=
  fun w => (Py.Ok tt, mkWorld (tape w) (pos w) (stderr w ++ [line])).

Declare Scope py_scope.
Delimit Scope py_scope with py.
Notation "x <- m ;; k" := (bind m (fun x => k))
  (at level 61, m at next level, right associativity) : py_scope.
Notation "m ;;; k" := (bind m (fun _ => k))
  (at level 61, right associativity) : py_scope.
Local Open Scope py_scope.

(* ================================================================== *)
(** * dice.py *)

Module Dice.

(** The fields of a [Dice] object. *)
Record t : Type := mk {
  number : Z;
  sides : Z;
  multiplier : Z;
  addition : Z
}.

(** ** The pattern of [_parse_string]

    Written with blanks between its parts, the pattern is
    [( [1-9] \d* )? d ( [1-9] \d* ) ( [/x] [1-9] \d* )? ( [+-] \d+ )?]. *)

(** The groups of a successful match; an optional group that did not take
    part is [None]. *)
Record groups : Type := mkGroups {
  group1 : option string;
  group2 : string;
  group3 : option string;
  group4 : option string
}.

(** [[1-9] \d *] at the start of [s]. *)
Definition posnum (s : string) : option (string * string) :=
  match s with
  | EmptyString => None
  | String c t =>
      if Py.is_digit19 c
      then let (ds, r) := Py.span_digits t in Some (String c ds, r)
      else None
  end.

(** [( [/x] [1-9] \d * )?] at the start of [s]. *)
Definition opt_multiplier (s : string) : option string * string :=
  match s with
  | String c t =>
      if Ascii.eqb c "/" || Ascii.eqb c "x"
      then match posnum t with
           | Some (n, r) => (Some (String c n), r)
           | None => (None, s)
           end
      else (None, s)
  | EmptyString => (None, s)
  end.

(** [( [+-] \d+ )?] at the start of [s]. *)
Definition opt_addition (s : string) : option string * string :=
  match s with
  | String c t =>
      if Ascii.eqb c "+" || Ascii.eqb c "-"
      then match Py.span_digits t with
           | (EmptyString, _) => (None, s)
           | (ds, r) => (Some (String c ds), r)
           end
      else (None, s)
  | EmptyString => (None, s)
  end.

(** The match of the pattern at the start of [s], with the text left over.
    Every quantifier is greedy and what follows a run of digits is never a
    digit, so giving back digits cannot turn a failure into a success: when
    the leading number is there it is taken whole, and the match fails when
    [d] or the number of sides does not follow. *)
Definition scan (s : string) : option (groups * string) :=
  let (g1, s1) :=
    match posnum s with
    | Some (n, r) => (Some n, r)
    | None => (None, s)
    end in
  match s1 with
  | EmptyString => None
  | String c s2 =>
      if Ascii.eqb c "d" then
        match posnum s2 with
        | Some (g2, s3) =>
            let (g3, s4) := opt_multiplier s3 in
            let (g4, s5) := opt_addition s4 in
            Some (mkGroups g1 g2 g3 g4, s5)
        | None => None
        end
      else None
  end.

(** [pattern.match(s)]: the match is anchored at the start only. *)
Definition re_match (s : string) : option groups := option_map fst (scan s).

(** [int(g)] where a failure is not caught. *)
Definition int_or_raise (g : string) : Py.res Z :=
  match Py.int g with
  | Some n => Py.Ok n
  | None => Py.Raise (Py.ValueError "invalid literal for int() with base 10")
  end.

(** ** [Dice._parse_string], that is [Dice(s)] for a string [s] *)
Definition _parse_string (s : string) : Py.res t :=
  match re_match s with
  | Some m =>
      Py.res_bind
        (match group1 m with
         | Some g => int_or_raise g
         | None => Py.Ok 1
         end) (fun number =>
      Py.res_bind (int_or_raise (group2 m)) (fun sides =>
      Py.res_bind
        (match group3 m with
         | Some g =>
             let positive := Py.startswith g "x" in
             Py.res_bind (int_or_raise (Py.tail1 g)) (fun val =>
             Py.Ok (if positive then val else - val))
         | None => Py.Ok 1
         end) (fun multiplier =>
      Py.res_bind
        (match group4 m with
         | Some g =>
             let positive := Py.startswith g "+" in
             Py.res_bind (int_or_raise (Py.tail1 g)) (fun val =>
             Py.Ok (if positive then val else - val))
         | None => Py.Ok 0
         end) (fun addition =>
      Py.Ok (mk number sides multiplier addition)))))
  | None =>
      match Py.int s with
      | Some n => Py.Ok (mk 0 0 1 n)
      | None => Py.Ok (mk 0 0 1 0)
      end
  end.

(** ** [Dice.roll]: [random.randint(1, sides)]

    The next value of the tape is the draw when it lies in [1..sides] and is
    folded into that range otherwise, so every sequence of draws the
    generator can produce is the behaviour of some tape. *)
Definition die (raw sides : Z) : Z := 1 + (raw - 1) mod sides.

Definition roll (sides : Z) : M Z :=
  fun w =>
    if sides <? 1
    then (Py.Raise (Py.ValueError "empty range for randrange()"), w)
    else (Py.Ok (die (tape w (pos w)) sides),
          mkWorld (tape w) (S (pos w)) (stderr w)).

(** ** [Dice._adjust_roll] *)
Definition _adjust_roll (d : t) (roll : Z) : Z :=
  let roll :=
    if multiplier d >=? 0
    then roll * multiplier d
    else (roll - 1) / (- multiplier d) + 1 in
  roll + addition d.

(** [for _ in range(n): total += Dice.roll(sides)] *)
Fixpoint roll_sum (n : nat) (sides total : Z) : M Z :=
  match n with
  | O => ret total
  | S n' => r <- roll sides ;; roll_sum n' sides (total + r)
  end.

(** ** [Dice.roll_dice] *)
Definition roll_dice (d : t) : M Z :=
  total <- roll_sum (Z.to_nat (number d)) (sides d) 0 ;;
  ret (_adjust_roll d total).


Definition min_roll (d : t) : Z := _adjust_roll d (number d).

Definition max_roll (d : t) : Z := _adjust_roll d (number d * sides d).

Definition avg_roll (d : t) : Z := (min_roll d + max_roll d) / 2.

Definition modify_add (d : t) (mod_ : Z) : t :=
  mk (number d) (sides d) (multiplier d) (addition d + mod_).

(** ** [Dice.__str__] *)
Definition _format_bonus (bonus : Z) : string :=
  if bonus >=? 0 then String "+" (Py.str bonus) else Py.str bonus.

Definition _format_multiplier (mult : Z) : string :=
  if mult >=? 0 then String "x" (Py.str mult) else String "/" (Py.str (- mult)).

Definition __str__ (d : t) : string :=
  if number d >? 0 then
    let s := (Py.str (number d) ++ String "d" (Py.str (sides d)))%string in
    let s := if multiplier d =? 1 then s
             else (s ++ _format_multiplier (multiplier d))%string in
    let s := if addition d =? 0 then s
             else (s ++ _format_bonus (addition d))%string in
    s
  else Py.str (addition d).

End Dice.

(* ================================================================== *)
(** * table.py *)

Module Table.

(** [self.table]: the rows of the CSV file, header row first. *)
Definition t : Type := list (list string).

Definition NULL_ENTRY : string := "-".

Definition get_num_rows (tb : t) : Z := Py.len tb - 1.

Definition get_num_cols (tb : t) : Z :=
  match tb with
  | [] => 0
  | header :: _ => Py.len header - 1
  end.

(** [self.table[row][col]] *)
Definition cell (tb : t) (row col : Z) : Py.res string :=
  Py.res_bind (Py.getitem tb row) (fun r => Py.getitem r col).

Definition get_row_name (tb : t) (index : Z) : Py.res string := cell tb index 0.

Definition get_col_name (tb : t) (index : Z) : Py.res string := cell tb 0 index.

Definition get_entry (tb : t) (row col : Z) : Py.res string := cell tb row col.

(** The loop of [get_row_from_name], with [count] indices left from [i] on. *)
Fixpoint row_search (tb : t) (name : string) (count : nat) (i : Z) : Py.res Z :=
  match count with
  | O => Py.Ok (-1)
  | S count' =>
      Py.res_bind (cell tb i 0) (fun h =>
      if String.eqb h name then Py.Ok i
      else row_search tb name count' (i + 1))
  end.

(** [for i in range(1, len(self.table))] *)
Definition get_row_from_name (tb : t) (name : string) : Py.res Z :=
  row_search tb name (Z.to_nat (Py.len tb - 1)) 1.

(** The loop of [get_col_from_name]. *)
Fixpoint col_search (tb : t) (name : string) (count : nat) (i : Z) : Py.res Z :=
  match count with
  | O => Py.Ok (-1)
  | S count' =>
      Py.res_bind (cell tb 0 i) (fun h =>
      if String.eqb h name then Py.Ok i
      else col_search tb name count' (i + 1))
  end.

(** [for i in range(1, len(self.table[0]))]; the bound is computed first and
    raises on a table without a header row. *)
Definition get_col_from_name (tb : t) (name : string) : Py.res Z :=
  Py.res_bind (Py.getitem tb 0) (fun header =>
  col_search tb name (Z.to_nat (Py.len header - 1)) 1).

Definition max_attempts : nat := 1000.

Definition exhausted (what : string) (index : Z) : Py.exn :=
  Py.ValueError ("No non-null entries found in " ++ what ++ " " ++ Py.str index
                 ++ " after " ++ Py.str (Z.of_nat max_attempts) ++ " attempts").

(** The [while attempts < max_attempts] loop of [get_random_entry_on_row],
    with [remaining = max_attempts - attempts]. *)
Fixpoint row_attempts (tb : t) (index : Z) (remaining : nat) : M string :=
  match remaining with
  | O => raise (exhausted "row" index)
  | S remaining' =>
      roll <- Dice.roll (get_num_cols tb) ;;
      entry <- lift (cell tb index roll) ;;
      if negb (String.eqb entry NULL_ENTRY) then ret entry
      else row_attempts tb index remaining'
  end.

Definition get_random_entry_on_row (tb : t) (index : Z) : M string :=
  row_attempts tb index max_attempts.

(** The loop of [get_random_entry_on_col]. *)
Fixpoint col_attempts (tb : t) (index : Z) (remaining : nat) : M string :=
  match remaining with
  | O => raise (exhausted "column" index)
  | S remaining' =>
      roll <- Dice.roll (get_num_rows tb) ;;
      entry <- lift (cell tb roll index) ;;
      if negb (String.eqb entry NULL_ENTRY) then ret entry
      else col_attempts tb index remaining'
  end.

Definition get_random_entry_on_col (tb : t) (index : Z) : M string :=
  col_attempts tb index max_attempts.

End Table.

(* ================================================================== *)
(** * wilderness_encounter_sim.py *)

Module Sim.

Definition MONSTER_NUM_COL : Z := 1.
Definition MONSTER_HDN_COL : Z := 12.
Definition MONSTER_EHD_COL : Z := 13.

(** The fields of a [WildernessEncounterSim] that the resolution reads. *)
Record t : Type := mk {
  main_table : Table.t;
  sub_table : Table.t;
  monster_table : Table.t;
  terrain : string;
  terrain_index : Z
}.

Definition sub_table_fixup (table sub : string) : string :=
  if String.eqb sub "Men" then
    if String.eqb table "Mountain" then "Men Mountain"
    else if String.eqb table "Desert" then "Men Desert"
    else if String.eqb table "River" then "Men Water"
    else "Men Typical"
  else sub.

(** The part of [monster_fixup] after the giant and dragon rolls. *)
Definition specific_animal (mon_name : string) : string :=
  if String.eqb mon_name "Giant Snake" then "Giant Snake, Constrictor"
  else if String.eqb mon_name "Giant Beetle" then "Giant Beetle, Bombardier"
  else if String.eqb mon_name "Giant Ant" then "Giant Ant, Worker"
  else if String.eqb mon_name "Sea Monster" then "Sea Monster, Small"
  else if String.eqb mon_name "Hydra" then "Hydra, 10 Heads"
  else if String.eqb mon_name "Roc" then "Roc, Small"
  else mon_name.

Definition dragon_subtype (mon_name : string) : M string :=
  if String.eqb mon_name "Dragon" then
    roll <- Dice.roll 6 ;;
    if roll =? 1 then ret "Dragon, White"
    else if roll =? 2 then ret "Dragon, Black"
    else if roll =? 3 then ret "Dragon, Green"
    else if roll =? 4 then ret "Dragon, Blue"
    else if roll =? 5 then ret "Dragon, Red"
    else if roll =? 6 then ret "Dragon, Gold"
    else ret (specific_animal mon_name)
  else ret (specific_animal mon_name).

Definition monster_fixup (mon_name : string) : M string :=
  if String.eqb mon_name "Giant" then
    roll <- Dice.roll 10 ;;
    if roll <=? 6 then ret "Giant, Hill"
    else if roll =? 7 then ret "Giant, Stone"
    else if roll =? 8 then ret "Giant, Frost"
    else if roll =? 9 then ret "Giant, Fire"
    else if roll =? 10 then ret "Giant, Cloud"
    else dragon_subtype mon_name
  else dragon_subtype mon_name.

(** The level that [handle_npc_type] assigns to a type name. *)
Definition npc_level (type_name : string) : Z :=
  if String.eqb type_name "Wizard" then 11
  else if String.eqb type_name "Necromancer" then 10
  else if String.eqb type_name "Lord" then 9
  else if String.eqb type_name "Superhero" then 8
  else if String.eqb type_name "Patriarch" then 8
  else if String.eqb type_name "Evil High Priest" then 8
  else 0.

(** [for _ in range(number): total += Dice.roll(4)] *)
Definition get_npc_entourage : M Z :=
  number <- Dice.roll_dice (Dice.mk 2 6 1 0) ;;
  Dice.roll_sum (Z.to_nat number) 4 0.

Definition handle_npc_type (type_name : string) : M Z :=
  let npc_level := npc_level type_name in
  if npc_level =? 0 then ret 0
  else entourage <- get_npc_entourage ;; ret (npc_level + entourage).

Definition ehd_fixup (mon_name : string) (ehd : Z) : Z :=
  if ehd =? 0 then
    if String.eqb mon_name "Dragon, Gold" then 40 else ehd
  else ehd.

Definition str_to_int (s : string) : Z :=
  match Py.int s with
  | Some n => n
  | None => 0
  end.

Definition str_to_dbl (s : string) : spec_float :=
  match Py.float s with
  | Some x => x
  | None => S754_zero false
  end.

Definition roll_encounter_by_monster (self : t) (monster_name : string) : M Z :=
  npc_value <- handle_npc_type monster_name ;;
  if npc_value >? 0 then ret npc_value
  else
    monster_index <- lift (Table.get_row_from_name (monster_table self) monster_name) ;;
    if monster_index <? 1 then
      eprint ("Unknown monster: " ++ monster_name) ;;;
      ret 0
    else
      num_cell <- lift (Table.get_entry (monster_table self) monster_index MONSTER_NUM_COL) ;;
      num_dice <- lift (Dice._parse_string num_cell) ;;
      number <- Dice.roll_dice num_dice ;;
      ehd_cell <- lift (Table.get_entry (monster_table self) monster_index MONSTER_EHD_COL) ;;
      let ehd := ehd_fixup monster_name (str_to_int ehd_cell) in
      (if ehd =? 0 then eprint ("Monster with null EHD: " ++ monster_name) else ret tt) ;;;
      let total_ehd := number * ehd in
      hdn_cell <- lift (Table.get_entry (monster_table self) monster_index MONSTER_HDN_COL) ;;
      let hit_dice_num := str_to_dbl hdn_cell in
      let total_ehd :=
        if Py.float_le hit_dice_num Py.one then total_ehd / 4 else total_ehd in
      ret total_ehd.

Definition roll_encounter_by_sub_table (self : t) (table_name : string) : M Z :=
  col_index <- lift (Table.get_col_from_name (sub_table self) table_name) ;;
  if col_index <? 1 then
    eprint ("Unknown subtable: " ++ table_name) ;;;
    ret 0
  else
    monster_name <- Table.get_random_entry_on_col (sub_table self) col_index ;;
    monster_name <- monster_fixup monster_name ;;
    roll_encounter_by_monster self monster_name.

Definition roll_encounter_by_terrain (self : t) : M Z :=
  sub_table_name <- Table.get_random_entry_on_col (main_table self) (terrain_index self) ;;
  let sub_table_name := sub_table_fixup (terrain self) sub_table_name in
  roll_encounter_by_sub_table self sub_table_name.


(** [parse_args]: the simulator with [terrain] and [terrain_index] set, and
    the flag [exit_after_args].  Before the call the two fields are unset and
    never read; the record holds placeholders for them until then. *)
Definition parse_args (self : t) (args : list string) : M (t * bool) :=
  match args with
  | [arg] =>
      index <- lift (Table.get_col_from_name (main_table self) arg) ;;
      let self' := mk (main_table self) (sub_table self) (monster_table self) arg index in
      if index <? 1 then
        eprint ("Unknown terrain: " ++ arg) ;;;
        ret (self', true)
      else ret (self', false)
  | _ => ret (self, true)
  end.





End Sim.

(** A tape that replays [l] and then yields ones. *)
Definition script (l : list Z) : world := mkWorld (fun n => nth n l 1) 0 [].

(* ================================================================== *)
(** * Vocabulary of the statements *)

(** Every character of [s] is a digit. *)
Fixpoint all_digits (s : string) : bool :=
  match s with
  | EmptyString => true
  | String c t => Py.is_digit c && all_digits t
  end.

(** [s] does not begin with a digit. *)
Definition no_digit_head (s : string) : bool :=
  match s with
  | EmptyString => true
  | String c _ => negb (Py.is_digit c)
  end.

(** [s] is a match of [[1-9] \d *]. *)
Definition is_posnum (s : string) : bool :=
  match s with
  | EmptyString => false
  | String c t => Py.is_digit19 c && all_digits t
  end.

(** The text of an optional group. *)
Definition text (g : option string) : string :=
  match g with
  | Some x => x
  | None => EmptyString
  end.

(** The group that a part of the input fills; an empty part fills none. *)
Definition group (part : string) : option string :=
  match part with
  | EmptyString => None
  | _ => Some part
  end.

(** What the two optional groups at the end look like. *)
Definition mult_shape (g : option string) : Prop :=
  match g with
  | None => True
  | Some m => exists op n, m = String op n /\ (op = "x" \/ op = "/")%char
                           /\ is_posnum n = true
  end.

Definition add_shape (g : option string) : Prop :=
  match g with
  | None => True
  | Some a => exists sg ds, a = String sg ds /\ (sg = "+" \/ sg = "-")%char
                            /\ all_digits ds = true /\ ds <> EmptyString
  end.

(** The numbers that [_parse_string] reads off the groups. *)
Definition count_of (g : option string) : Z :=
  match g with
  | Some n => Py.digits_value n 0
  | None => 1
  end.

Definition signed_of (plus : ascii) (g : option string) (default : Z) : Z :=
  match g with
  | Some m =>
      if Py.startswith m plus then Py.digits_value (Py.tail1 m) 0
      else - Py.digits_value (Py.tail1 m) 0
  | None => default
  end.

(** The constant that the fallback of [_parse_string] reads. *)
Definition constant_of (s : string) : Z :=
  match Py.int s with
  | Some n => n
  | None => 0
  end.

(** The world after [n] more draws. *)
Definition advance (w : world) (n : nat) : world :=
  mkWorld (tape w) (n + pos w) (stderr w).

(** The sum of the [n] draws of a die with [sides] sides that a tape yields
    from position [start] on. *)
Fixpoint sum_draws (tp : nat -> Z) (start n : nat) (sides : Z) : Z :=
  match n with
  | O => 0
  | S n' => Dice.die (tp start) sides + sum_draws tp (S start) n' sides
  end.

(** The world after a line was printed to [sys.stderr]. *)
Definition logged (w : world) (line : string) : world :=
  mkWorld (tape w) (pos w) (stderr w ++ [line]).

(** The NPC archetypes and their base levels. *)
Definition npc_types : list (string * Z) :=
  [("Wizard", 11); ("Necromancer", 10); ("Lord", 9); ("Superhero", 8);
   ("Patriarch", 8); ("Evil High Priest", 8)].


Definition col_names (tb : Table.t) : list string := tl (hd [] tb).

(** The language of the pattern of [_parse_string]: an optional count, [d],
    the sides, an optional [x] or [/] with a magnitude, an optional sign
    with an addend. *)
Definition dice_notation (s : string) : Prop :=
  exists count sides mult add : string,
    s = (count ++ String "d" (sides ++ mult ++ add))%string
    /\ (count = EmptyString \/ is_posnum count = true)
    /\ is_posnum sides = true
    /\ mult_shape (group mult)
    /\ add_shape (group add).


(** The texts that [__str__] writes for the multiplier and the addend of a
    specification with dice. *)
Definition mult_text (m : Z) : string :=
  if m =? 1 then EmptyString else Dice._format_multiplier m.

Definition add_text (a : Z) : string :=
  if a =? 0 then EmptyString else Dice._format_bonus a.

(** A database with one monster: three appear, the hit-dice number is 0.5 and
    the effective difficulty is 8. *)
Definition kobold_db : Table.t :=
  [["Name"; "Num"; "c2"; "c3"; "c4"; "c5"; "c6"; "c7"; "c8"; "c9"; "c10"; "c11"; "HDN"; "EHD"];
   ["Kobold"; "3"; "-"; "-"; "-"; "-"; "-"; "-"; "-"; "-"; "-"; "-"; "0.5"; "8"]]%string.

(** A database whose hit-dice-number cell is blank. *)
Definition blank_hdn_db : Table.t :=
  [["Name"; "Num"; "c2"; "c3"; "c4"; "c5"; "c6"; "c7"; "c8"; "c9"; "c10"; "c11"; "HDN"; "EHD"];
   ["Ooze"; "2d1"; "-"; "-"; "-"; "-"; "-"; "-"; "-"; "-"; "-"; "-"; ""; "10"]]%string.

(** Text that cannot continue a match of the pattern: it is empty, or begins
    with a character that is neither a digit nor one of [x], [/], [+], [-]. *)
Definition inert_head (r : string) : bool :=
  match r with
  | EmptyString => true
  | String c _ =>
      negb (Py.is_digit c || Ascii.eqb c "x" || Ascii.eqb c "/"
            || Ascii.eqb c "+" || Ascii.eqb c "-")
  end.

(** The scan that both name lookups make, over the header cells that [look]
    reads: [count] indices from [i] on. *)
Fixpoint search (look : Z -> Py.res string) (name : string) (count : nat) (i : Z)
  : Py.res Z :=
  match count with
  | O => Py.Ok (-1)
  | S count' =>
      Py.res_bind (look i) (fun h =>
      if String.eqb h name then Py.Ok i else search look name count' (i + 1))
  end.

(** Every row of the table is as long as the header row. *)
Definition rectangular (tb : Table.t) : Prop :=
  forall r, In r tb -> Py.len r = Py.len (hd [] tb).

(** The [i]-th of the next draws of a die with [sides] sides. *)
Definition draw_at (w : world) (sides : Z) (i : nat) : Z :=
  Dice.die (tape w (i + pos w)) sides.

(** The generic names that [monster_fixup] replaces. *)
Definition generic_names : list string :=
  ["Giant"; "Dragon"; "Giant Snake"; "Giant Beetle"; "Giant Ant"; "Sea Monster";
   "Hydra"; "Roc"].

(** A small world: one terrain, one subtable, one monster of which one
    appears, with hit-dice number 2 and effective difficulty 10. *)
Definition plains_sim : Sim.t :=
  Sim.mk [[""; "Plains"]; ["1"; "Animals"]]
         [[""; "Animals"]; ["1"; "Wolf"]]
         [["Name"; "Num"; "c2"; "c3"; "c4"; "c5"; "c6"; "c7"; "c8"; "c9"; "c10"; "c11"; "HDN"; "EHD"];
          ["Wolf"; "1"; "-"; "-"; "-"; "-"; "-"; "-"; "-"; "-"; "-"; "-"; "2"; "10"];
          ["Dragon, Gold"; "d2"; "-"; "-"; "-"; "-"; "-"; "-"; "-"; "-"; "-"; "-"; "12"; ""];
          ["Shade"; "2d4"; "-"; "-"; "-"; "-"; "-"; "-"; "-"; "-"; "-"; "-"; "nan"; "n/a"]]%string
         "Plains" 1.

(* ================================================================== *)
(** * Worked examples *)

Example str_ex : map Py.str [0; 7; 10; 4096; -25] = ["0"; "7"; "10"; "4096"; "-25"].
Proof. reflexivity. Qed.

Example int_ex :
  map Py.int ["12"; " +1_000 "; "-07"; ""; "1__0"; "_1"; "1_"; "+-1"; "3d6"; "0x10"]
  = [Some 12; Some 1000; Some (-7); None; None; None; None; None; None; None].
Proof. reflexivity. Qed.

Example parse_ex :
  map Dice._parse_string ["3d6+2"; "2d8x2-1"; "4d6/2"; "5"; "d20"; "3d6abc"; "abc"; "0d6"; "1d6+"; "2d6x0+3"]
  = map (@Py.Ok _) [Dice.mk 3 6 1 2; Dice.mk 2 8 2 (-1); Dice.mk 4 6 (-2) 0; Dice.mk 0 0 1 5;
     Dice.mk 1 20 1 0; Dice.mk 3 6 1 0; Dice.mk 0 0 1 0; Dice.mk 0 0 1 0; Dice.mk 1 6 1 0; Dice.mk 2 6 1 0].
Proof. reflexivity. Qed.

Example fmt_ex :
  map Dice.__str__ [Dice.mk 3 6 1 2; Dice.mk 2 8 2 (-1); Dice.mk 4 6 (-2) 0; Dice.mk 0 0 1 5]
  = ["3d6+2"; "2d8x2-1"; "4d6/2"; "5"].
Proof. reflexivity. Qed.

(* ================================================================== *)
(** * Characters and decimal numerals *)

(** Case analysis on the integer comparisons that occur in a goal. *)
Ltac cmp :=
  repeat match goal with
    | |- context [?a <=? ?b] => destruct (Z.leb_spec a b)
    | |- context [?a <? ?b] => destruct (Z.ltb_spec a b)
    | |- context [?a =? ?b] => destruct (Z.eqb_spec a b)
    | H : context [?a <=? ?b] |- _ => destruct (Z.leb_spec a b)
    | H : context [?a <? ?b] |- _ => destruct (Z.ltb_spec a b)
    | H : context [?a =? ?b] |- _ => destruct (Z.eqb_spec a b)
    end;
  simpl in *; try discriminate; try reflexivity; try lia.

Section Numerals.

Import Py.

Lemma digit19_digit c : is_digit19 c = true -> is_digit c = true.
Proof. unfold is_digit19, is_digit. cmp. Qed.

Lemma digit_not_space c : is_digit c = true -> is_space c = false.
Proof. unfold is_digit, is_space. cbv zeta. cmp. Qed.

Lemma digit_neq c (a : ascii) :
  is_digit c = true -> is_digit a = false -> Ascii.eqb c a = false.
Proof.
  intros Hc Ha. destruct (Ascii.eqb_spec c a); [subst; congruence | reflexivity].
Qed.

Lemma digit_chr_spec d :
  0 <= d < 10 ->
  is_digit (digit_chr d) = true /\ digit_val (digit_chr d) = d
  /\ (1 <= d -> is_digit19 (digit_chr d) = true).
Proof.
  intros H.
  assert (E : d = 0 \/ d = 1 \/ d = 2 \/ d = 3 \/ d = 4 \/ d = 5 \/ d = 6
              \/ d = 7 \/ d = 8 \/ d = 9) by lia.
  repeat (destruct E as [E | E]; [subst d; repeat split; solve [reflexivity | intros; lia] |]).
  subst d; repeat split; reflexivity.
Qed.

Lemma digit_val_range c : is_digit c = true -> 0 <= digit_val c < 10.
Proof. unfold is_digit, digit_val. cmp. Qed.

Lemma digit19_val_pos c : is_digit19 c = true -> 1 <= digit_val c.
Proof. unfold is_digit19, digit_val. cmp. Qed.

(** ** Strings *)

Lemma append_assoc (a b c : string) : ((a ++ b) ++ c = a ++ (b ++ c))%string.
Proof. induction a as [| x a IH]; simpl; [reflexivity | now rewrite IH]. Qed.

Lemma append_nil_r (a : string) : (a ++ "")%string = a.
Proof. induction a as [| x a IH]; simpl; [reflexivity | now rewrite IH]. Qed.

Lemma all_digits_app a b :
  all_digits (a ++ b) = all_digits a && all_digits b.
Proof.
  induction a as [| x a IH]; simpl; [reflexivity |].
  now rewrite IH, andb_assoc.
Qed.

Lemma is_posnum_all_digits s : is_posnum s = true -> all_digits s = true.
Proof.
  destruct s as [| c t]; simpl; [discriminate |].
  intros H. apply andb_true_iff in H as [H1 H2].
  now rewrite (digit19_digit _ H1), H2.
Qed.

Lemma span_digits_app ds r :
  all_digits ds = true -> no_digit_head r = true ->
  span_digits (ds ++ r) = (ds, r).
Proof.
  induction ds as [| c ds IH]; simpl; intros Hd Hr.
  - destruct r as [| c r]; simpl in *; [reflexivity |].
    apply negb_true_iff in Hr. now rewrite Hr.
  - apply andb_true_iff in Hd as [Hc Hd]. now rewrite Hc, IH.
Qed.

Lemma span_digits_spec s :
  let (ds, r) := span_digits s in
  s = (ds ++ r)%string /\ all_digits ds = true /\ no_digit_head r = true.
Proof.
  induction s as [| c s IH]; simpl; [auto |].
  destruct (is_digit c) eqn:Hc.
  - destruct (span_digits s) as [ds r]. destruct IH as (-> & Hd & Hr).
    simpl. now rewrite Hc, Hd.
  - simpl. now rewrite Hc.
Qed.

Lemma digits_value_app a b acc :
  digits_value (a ++ b) acc = digits_value b (digits_value a acc).
Proof. revert acc. induction a as [| x a IH]; simpl; intros; [reflexivity | apply IH]. Qed.

Lemma digits_value_mono s acc :
  all_digits s = true -> 0 <= acc -> acc <= digits_value s acc.
Proof.
  revert acc. induction s as [| c s IH]; cbn [digits_value all_digits];
    intros acc Hd Ha; [lia |].
  apply andb_true_iff in Hd as [Hc Hd].
  pose proof (digit_val_range _ Hc).
  specialize (IH (10 * acc + digit_val c) Hd). lia.
Qed.

Lemma is_posnum_value_pos s : is_posnum s = true -> 1 <= digits_value s 0.
Proof.
  destruct s as [| c t]; cbn [is_posnum digits_value]; [discriminate |].
  intros H. apply andb_true_iff in H as [Hc Ht].
  pose proof (digit19_val_pos _ Hc).
  pose proof (digits_value_mono t (10 * 0 + digit_val c) Ht). lia.
Qed.

(** ** [int] on a run of digits *)

Lemma lstrip_digits s : no_digit_head s = false -> lstrip s = s.
Proof.
  destruct s as [| c t]; simpl; [discriminate |].
  intros H. apply negb_false_iff in H. now rewrite (digit_not_space _ H).
Qed.

Lemma rstrip_digits s : all_digits s = true -> rstrip s = s.
Proof.
  induction s as [| c t IH]; simpl; [reflexivity |].
  intros H. apply andb_true_iff in H as [Hc Ht].
  rewrite (IH Ht), (digit_not_space _ Hc). now destruct t.
Qed.

Lemma int_body_digits s acc :
  all_digits s = true -> int_body s false acc = Some (digits_value s acc).
Proof.
  revert acc. induction s as [| c t IH]; simpl; intros acc H; [reflexivity |].
  apply andb_true_iff in H as [Hc Ht]. rewrite Hc. now apply IH.
Qed.

Lemma int_digits s :
  all_digits s = true -> s <> EmptyString -> int s = Some (digits_value s 0).
Proof.
  intros Hd Hne. destruct s as [| c t]; [congruence |].
  unfold int, strip.
  rewrite lstrip_digits, (rstrip_digits _ Hd).
  2:{ simpl in *. apply andb_true_iff in Hd as [Hc _]. now rewrite Hc. }
  simpl in Hd. apply andb_true_iff in Hd as [Hc Ht].
  rewrite (digit_neq c "+" Hc eq_refl), (digit_neq c "-" Hc eq_refl).
  simpl. rewrite Hc. now apply int_body_digits.
Qed.

(** ** [str] writes a numeral that [int] reads back *)

Lemma str_digits_S f n acc :
  str_digits (S f) n acc =
  if n / 10 =? 0 then String (digit_chr (n mod 10)) acc
  else str_digits f (n / 10) (String (digit_chr (n mod 10)) acc).
Proof. reflexivity. Qed.

Lemma str_digits_spec fuel n acc :
  0 <= n < 2 ^ Z.of_nat (S fuel) ->
  exists c ds,
    str_digits (S fuel) n acc = String c (ds ++ acc)
    /\ is_digit c = true /\ all_digits ds = true
    /\ (1 <= n -> is_digit19 c = true)
    /\ digits_value (String c ds) 0 = n.
Proof.
  revert n acc. induction fuel as [| f IH]; intros n acc Hn;
    rewrite str_digits_S;
    (assert (Hm : 0 <= n mod 10 < 10) by (apply Z.mod_pos_bound; lia));
    destruct (digit_chr_spec _ Hm) as (Hd & Hv & H19);
    pose proof (Z.div_mod n 10 ltac:(lia)) as Hdm;
    destruct (Z.eqb_spec (n / 10) 0) as [Hq | Hq].
  1, 3: exists (digit_chr (n mod 10)), EmptyString; simpl;
    repeat split; auto; [intros; apply H19; lia | rewrite Hv; lia].
  - (* one unit of fuel: [n < 2], so the quotient is zero *)
    exfalso. apply Hq. apply Z.div_small. simpl in Hn. lia.
  - assert (Hq' : 0 <= n / 10 < 2 ^ Z.of_nat (S f)).
    { split; [apply Z.div_pos; lia |].
      rewrite (Nat2Z.inj_succ (S f)), Z.pow_succ_r in Hn by lia.
      apply Z.div_lt_upper_bound; lia. }
    destruct (IH (n / 10) (String (digit_chr (n mod 10)) acc) Hq')
      as (c & ds & E & Hc & Hds & Hc19 & Hval).
    exists c, (ds ++ String (digit_chr (n mod 10)) EmptyString)%string.
    rewrite E, append_assoc. simpl. repeat split; auto.
    + rewrite all_digits_app, Hds. simpl. now rewrite Hd.
    + intros _. apply Hc19. lia.
    + simpl in Hval. rewrite digits_value_app, Hval. cbn [digits_value].
      rewrite Hv. lia.
Qed.

Lemma str_nat_spec n :
  0 <= n ->
  exists c ds,
    str_nat n = String c ds
    /\ is_digit c = true /\ all_digits ds = true
    /\ (1 <= n -> is_digit19 c = true)
    /\ digits_value (String c ds) 0 = n.
Proof.
  intros Hn. unfold str_nat.
  destruct (str_digits_spec (Z.to_nat (Z.log2 n)) n EmptyString)
    as (c & ds & E & H).
  - rewrite Nat2Z.inj_succ, Z2Nat.id by apply Z.log2_nonneg.
    split; [assumption |].
    destruct (Z.eq_dec n 0) as [-> | Hnz]; [reflexivity |].
    apply Z.log2_spec. lia.
  - exists c, ds. now rewrite E, append_nil_r.
Qed.

Lemma str_nonneg n : 0 <= n -> str n = str_nat n.
Proof. intros H. unfold str. destruct (Z.ltb_spec n 0); [lia | reflexivity]. Qed.

Lemma str_neg n : n < 0 -> str n = String "-" (str_nat (- n)).
Proof. intros H. unfold str. destruct (Z.ltb_spec n 0); [reflexivity | lia]. Qed.

Lemma str_nat_digits n :
  0 <= n -> all_digits (str_nat n) = true /\ str_nat n <> EmptyString
            /\ digits_value (str_nat n) 0 = n.
Proof.
  intros Hn. destruct (str_nat_spec n Hn) as (c & ds & E & Hc & Hds & _ & Hv).
  rewrite E. repeat split; [simpl; now rewrite Hc, Hds | discriminate | assumption].
Qed.

Lemma str_nat_posnum n : 1 <= n -> is_posnum (str_nat n) = true.
Proof.
  intros Hn. destruct (str_nat_spec n) as (c & ds & E & _ & Hds & H19 & _); [lia |].
  rewrite E. simpl. now rewrite (H19 Hn), Hds.
Qed.

(** [int(str(n)) == n] for a natural number [n]. *)
Lemma int_str_nat n : 0 <= n -> int (str_nat n) = Some n.
Proof.
  intros Hn. destruct (str_nat_digits n Hn) as (Hd & Hne & Hv).
  now rewrite (int_digits _ Hd Hne), Hv.
Qed.

End Numerals.

(* ================================================================== *)
(** * The pattern matcher *)

Section Matcher.

Import Py Dice.

Lemma posnum_spec s n r :
  posnum s = Some (n, r) ->
  s = (n ++ r)%string /\ is_posnum n = true /\ no_digit_head r = true.
Proof.
  destruct s as [| c t]; simpl; [discriminate |].
  destruct (is_digit19 c) eqn:Hc; [| discriminate].
  pose proof (span_digits_spec t) as H. destruct (span_digits t) as [ds r'].
  destruct H as (-> & Hd & Hr). intros [= <- <-]. simpl. now rewrite Hc, Hd.
Qed.

Lemma posnum_app n r :
  is_posnum n = true -> no_digit_head r = true -> posnum (n ++ r) = Some (n, r).
Proof.
  destruct n as [| c ds]; simpl; [discriminate |].
  intros H Hr. apply andb_true_iff in H as [Hc Hd].
  now rewrite Hc, (span_digits_app _ _ Hd Hr).
Qed.


Lemma posnum_no_digit s : no_digit_head s = true -> posnum s = None.
Proof.
  destruct s as [| c t]; simpl; [reflexivity |].
  intros H. apply negb_true_iff in H.
  destruct (is_digit19 c) eqn:Hc; [| reflexivity].
  apply digit19_digit in Hc. congruence.
Qed.

Lemma opt_multiplier_spec s g r :
  opt_multiplier s = (g, r) -> s = (text g ++ r)%string /\ mult_shape g.
Proof.
  destruct s as [| c t]; simpl.
  - intros [= <- <-]. simpl. auto.
  - destruct (Ascii.eqb c "/" || Ascii.eqb c "x") eqn:Hop.
    + destruct (posnum t) as [[n r'] |] eqn:Hn.
      * intros [= <- <-]. apply posnum_spec in Hn as (-> & Hn & _).
        simpl. split; [reflexivity |]. exists c, n. repeat split; auto.
        apply orb_true_iff in Hop as [H | H]; apply Ascii.eqb_eq in H; auto.
      * intros [= <- <-]. simpl. auto.
    + intros [= <- <-]. simpl. auto.
Qed.

Lemma opt_addition_spec s g r :
  opt_addition s = (g, r) -> s = (text g ++ r)%string /\ add_shape g.
Proof.
  destruct s as [| c t]; simpl.
  - intros [= <- <-]. simpl. auto.
  - destruct (Ascii.eqb c "+" || Ascii.eqb c "-") eqn:Hsg.
    + pose proof (span_digits_spec t) as H.
      destruct (span_digits t) as [[| d ds] r'].
      * intros [= <- <-]. simpl. auto.
      * destruct H as (-> & Hd & _). intros [= <- <-].
        simpl. split; [reflexivity |]. exists c, (String d ds).
        repeat split; auto; [| discriminate].
        apply orb_true_iff in Hsg as [H | H]; apply Ascii.eqb_eq in H; auto.
    + intros [= <- <-]. simpl. auto.
Qed.

(** A successful match splits the input into the groups and the rest, and
    every group has the shape the pattern gives it. *)
Lemma scan_sound s g r :
  scan s = Some (g, r) ->
  s = (text (group1 g) ++ String "d" (group2 g ++ text (group3 g)
         ++ text (group4 g) ++ r))%string
  /\ match group1 g with Some n => is_posnum n = true | None => True end
  /\ is_posnum (group2 g) = true
  /\ mult_shape (group3 g) /\ add_shape (group4 g).
Proof.
  unfold scan.
  assert (H1 : exists g1 s1,
             (match posnum s with Some (n, r0) => (Some n, r0) | None => (None, s) end)
             = (g1, s1)
             /\ s = (text g1 ++ s1)%string
             /\ match g1 with Some n => is_posnum n = true | None => True end).
  { destruct (posnum s) as [[n r0] |] eqn:Hn.
    - apply posnum_spec in Hn as (-> & Hn & _). now exists (Some n), r0.
    - now exists None, s. }
  destruct H1 as (g1 & s1 & -> & -> & Hg1).
  destruct s1 as [| c s2]; [discriminate |].
  destruct (Ascii.eqb_spec c "d") as [-> | _]; [| discriminate].
  destruct (posnum s2) as [[g2 s3] |] eqn:H2; [| discriminate].
  apply posnum_spec in H2 as (-> & Hg2 & _).
  destruct (opt_multiplier s3) as [g3 s4] eqn:H3.
  apply opt_multiplier_spec in H3 as (-> & Hg3).
  destruct (opt_addition s4) as [g4 s5] eqn:H4.
  apply opt_addition_spec in H4 as (-> & Hg4).
  intros [= <- <-]. simpl. auto.
Qed.

Lemma opt_addition_full a :
  add_shape (Some a) -> opt_addition a = (Some a, EmptyString).
Proof.
  intros (sg & ds & -> & Hsg & Hd & Hne). simpl.
  replace (Ascii.eqb sg "+" || Ascii.eqb sg "-") with true
    by (destruct Hsg as [-> | ->]; reflexivity).
  rewrite <- (append_nil_r ds) at 1.
  rewrite (span_digits_app ds EmptyString Hd eq_refl).
  destruct ds; [congruence | reflexivity].
Qed.

Lemma add_shape_head a :
  add_shape (Some a) -> no_digit_head a = true /\ opt_multiplier a = (None, a).
Proof.
  intros (sg & ds & -> & Hsg & _). destruct Hsg as [-> | ->]; now split.
Qed.

(** The greedy matcher consumes a string of the language whole, and its
    groups are the parts of the string. *)
Lemma scan_parts cnt sd m a :
  (cnt = EmptyString \/ is_posnum cnt = true) ->
  is_posnum sd = true ->
  mult_shape (group m) -> add_shape (group a) ->
  scan (cnt ++ String "d" (sd ++ m ++ a))
  = Some (mkGroups (group cnt) sd (group m) (group a), EmptyString).
Proof.
  intros Hc Hsd Hm Ha.
  assert (Ha' : no_digit_head a = true /\ opt_multiplier a = (None, a)
                /\ opt_addition a = (group a, EmptyString)).
  { destruct a as [| sg ds]; [simpl; auto |].
    destruct (add_shape_head _ Ha). repeat split; auto.
    now apply opt_addition_full. }
  destruct Ha' as (Hah & Ham & Hg4).
  assert (Hm' : no_digit_head (m ++ a) = true
                /\ opt_multiplier (m ++ a) = (group m, a)).
  { destruct m as [| op n]; [simpl; auto |].
    destruct Hm as (op' & n' & [= <- <-] & Hop & Hn). simpl.
    split; [destruct Hop as [-> | ->]; reflexivity |].
    replace (Ascii.eqb op "/" || Ascii.eqb op "x") with true
      by (destruct Hop as [-> | ->]; reflexivity).
    now rewrite (posnum_app n a Hn Hah). }
  destruct Hm' as (Hmh & Hg3).
  assert (H1 : (match posnum (cnt ++ String "d" (sd ++ m ++ a)) with
                | Some (n, r0) => (Some n, r0)
                | None => (None, (cnt ++ String "d" (sd ++ m ++ a))%string)
                end) = (group cnt, String "d" (sd ++ m ++ a))).
  { destruct Hc as [-> | Hc]; [reflexivity |].
    rewrite (posnum_app cnt (String "d" (sd ++ m ++ a)) Hc eq_refl).
    now destruct cnt. }
  unfold scan. rewrite H1. simpl.
  now rewrite (posnum_app sd _ Hsd Hmh), Hg3, Hg4.
Qed.

Lemma scan_full s :
  dice_notation s -> exists g, scan s = Some (g, EmptyString).
Proof.
  intros (cnt & sd & m & a & -> & Hc & Hsd & Hm & Ha).
  eexists. now apply scan_parts.
Qed.




End Matcher.

(* ================================================================== *)
(** * Parsing and formatting dice notation *)

Section Parsing.

Import Py Dice.

Lemma int_or_raise_digits s :
  all_digits s = true -> s <> EmptyString ->
  int_or_raise s = Ok (digits_value s 0).
Proof. intros Hd Hne. unfold int_or_raise. now rewrite int_digits. Qed.

Lemma int_or_raise_posnum s :
  is_posnum s = true -> int_or_raise s = Ok (digits_value s 0).
Proof.
  intros H. apply int_or_raise_digits.
  - now apply is_posnum_all_digits.
  - destruct s; [discriminate | congruence].
Qed.

(** On a match, the fields are the numbers written in the groups. *)
Lemma parse_matched s g r :
  scan s = Some (g, r) ->
  _parse_string s
  = Ok (mk (count_of (group1 g)) (digits_value (group2 g) 0)
           (signed_of "x" (group3 g) 1) (signed_of "+" (group4 g) 0)).
Proof.
  intros E. unfold _parse_string, re_match. rewrite E. cbn [option_map fst].
  apply scan_sound in E as (_ & H1 & H2 & H3 & H4).
  destruct g as [g1 g2 g3 g4]. cbn [group1 group2 group3 group4] in *.
  assert (E1 : match g1 with Some g => int_or_raise g | None => Ok 1 end
               = Ok (count_of g1)).
  { destruct g1 as [n |]; [now apply int_or_raise_posnum | reflexivity]. }
  assert (E3 : match g3 with
               | Some g => res_bind (int_or_raise (tail1 g)) (fun val =>
                           Ok (if startswith g "x" then val else - val))
               | None => Ok 1
               end = Ok (signed_of "x" g3 1)).
  { destruct g3 as [m |]; [| reflexivity].
    destruct H3 as (op & n & -> & _ & Hn). cbn [tail1 signed_of].
    rewrite (int_or_raise_posnum _ Hn). cbn [res_bind].
    now destruct (startswith (String op n) "x"). }
  assert (E4 : match g4 with
               | Some g => res_bind (int_or_raise (tail1 g)) (fun val =>
                           Ok (if startswith g "+" then val else - val))
               | None => Ok 0
               end = Ok (signed_of "+" g4 0)).
  { destruct g4 as [a |]; [| reflexivity].
    destruct H4 as (sg & ds & -> & _ & Hd & Hne). cbn [tail1 signed_of].
    rewrite (int_or_raise_digits _ Hd Hne). cbn [res_bind].
    now destruct (startswith (String sg ds) "+"). }
  rewrite E1, (int_or_raise_posnum _ H2), E3, E4. reflexivity.
Qed.

(** Without a match, the whole string is read as a constant. *)
Lemma parse_unmatched s :
  scan s = None -> _parse_string s = Ok (mk 0 0 1 (constant_of s)).
Proof.
  intros E. unfold _parse_string, re_match, constant_of. rewrite E. cbn.
  now destruct (int s).
Qed.

Lemma _parse_string_total s : exists d, _parse_string s = Ok d.
Proof.
  destruct (scan s) as [[g r] |] eqn:E.
  - rewrite (parse_matched _ _ _ E). eauto.
  - rewrite (parse_unmatched _ E). eauto.
Qed.

(** A parsed specification is a constant, or has at least one die with at
    least one side. *)
Lemma _parse_string_valid s d :
  _parse_string s = Ok d ->
  (number d = 0 /\ sides d = 0 /\ multiplier d = 1)
  \/ (1 <= number d /\ 1 <= sides d /\ multiplier d <> 0).
Proof.
  destruct (scan s) as [[g r] |] eqn:E.
  - rewrite (parse_matched _ _ _ E). intros [= <-]. right.
    apply scan_sound in E as (_ & H1 & H2 & H3 & _).
    cbn [number sides multiplier]. repeat split.
    + destruct (group1 g) as [n |]; cbn [count_of]; [| lia].
      now apply is_posnum_value_pos.
    + now apply is_posnum_value_pos.
    + destruct (group3 g) as [m |]; cbn [signed_of]; [| lia].
      destruct H3 as (op & n & -> & _ & Hn). cbn [tail1].
      pose proof (is_posnum_value_pos _ Hn).
      destruct (startswith (String op n) "x"); lia.
  - rewrite (parse_unmatched _ E). intros [= <-]. now left.
Qed.

Lemma str_with_dice d :
  number d > 0 ->
  __str__ d = (str (number d) ++ String "d"
                 (str (sides d) ++ mult_text (multiplier d) ++ add_text (addition d)))%string.
Proof.
  intros H. unfold __str__, mult_text, add_text.
  destruct (Z.gtb_spec (number d) 0); [| lia].
  destruct (multiplier d =? 1), (addition d =? 0);
    rewrite ?append_assoc; cbn [append]; rewrite ?append_assoc, ?append_nil_r;
    reflexivity.
Qed.

Lemma mult_text_spec m :
  m <> 0 ->
  mult_shape (group (mult_text m)) /\ signed_of "x" (group (mult_text m)) 1 = m.
Proof.
  intros Hm. unfold mult_text, _format_multiplier.
  destruct (Z.eqb_spec m 1) as [-> | H1]; [now split |].
  destruct (Z.geb_spec m 0) as [Hp | Hn].
  - rewrite str_nonneg by lia. destruct (str_nat_digits m) as (_ & _ & Hv); [lia |].
    split.
    + exists "x"%char, (str_nat m). repeat split; auto. apply str_nat_posnum. lia.
    + cbn. exact Hv.
  - rewrite str_nonneg by lia. destruct (str_nat_digits (- m)) as (_ & _ & Hv); [lia |].
    split.
    + exists "/"%char, (str_nat (- m)). repeat split; auto. apply str_nat_posnum. lia.
    + cbn [group signed_of startswith tail1]. cbn [Ascii.eqb Bool.eqb]. rewrite Hv. lia.
Qed.

Lemma add_text_spec a :
  add_shape (group (add_text a)) /\ signed_of "+" (group (add_text a)) 0 = a.
Proof.
  unfold add_text, _format_bonus.
  destruct (Z.eqb_spec a 0) as [-> | H0]; [now split |].
  destruct (Z.geb_spec a 0) as [Hp | Hn].
  - rewrite str_nonneg by lia.
    destruct (str_nat_digits a) as (Hd & Hne & Hv); [lia |].
    split.
    + exists "+"%char, (str_nat a). repeat split; auto.
    + cbn. exact Hv.
  - rewrite str_neg by lia.
    destruct (str_nat_digits (- a)) as (Hd & Hne & Hv); [lia |].
    split.
    + exists "-"%char, (str_nat (- a)). repeat split; auto.
    + cbn [group signed_of startswith tail1]. cbn [Ascii.eqb Bool.eqb]. rewrite Hv. lia.
Qed.



End Parsing.

(* ================================================================== *)
(** * Rolling *)

Section Rolling.

Import Py Dice.

Lemma die_range raw sides : 1 <= sides -> 1 <= die raw sides <= sides.
Proof.
  intros H. unfold die.
  pose proof (Z.mod_pos_bound (raw - 1) sides). lia.
Qed.

Lemma die_in_range raw sides : 1 <= raw <= sides -> die raw sides = raw.
Proof. intros H. unfold die. rewrite Z.mod_small; lia. Qed.

Lemma roll_ok sides w :
  1 <= sides -> roll sides w = (Ok (die (tape w (pos w)) sides), advance w 1).
Proof. intros H. unfold roll. destruct (Z.ltb_spec sides 1); [lia | reflexivity]. Qed.

Lemma roll_empty_range sides w :
  sides < 1 -> roll sides w = (Raise (ValueError "empty range for randrange()"), w).
Proof. intros H. unfold roll. destruct (Z.ltb_spec sides 1); [reflexivity | lia]. Qed.

Lemma advance_advance w a b : advance (advance w a) b = advance w (a + b).
Proof. unfold advance. cbn. f_equal. lia. Qed.

Lemma advance_0 w : advance w 0 = w.
Proof. now destruct w. Qed.

Lemma roll_sum_spec n sides :
  1 <= sides ->
  forall total w,
    roll_sum n sides total w
    = (Ok (total + sum_draws (tape w) (pos w) n sides), advance w n).
Proof.
  intros Hs. induction n as [| n IH]; intros total w.
  - cbn. rewrite advance_0. unfold ret. do 2 f_equal. lia.
  - cbn [roll_sum sum_draws]. unfold bind. rewrite (roll_ok _ _ Hs), IH.
    rewrite advance_advance. cbn [tape pos advance Nat.add]. do 2 f_equal. lia.
Qed.

Lemma sum_draws_bounds tp start n sides :
  1 <= sides ->
  Z.of_nat n <= sum_draws tp start n sides <= Z.of_nat n * sides.
Proof.
  intros Hs. revert start. induction n as [| n IH]; intros start.
  - cbn. lia.
  - cbn [sum_draws]. specialize (IH (S start)).
    pose proof (die_range (tp start) sides Hs). lia.
Qed.

(** On a specification with sides, [roll_dice] adjusts the sum of [number]
    draws and never raises. *)
Lemma roll_dice_spec d w :
  1 <= sides d ->
  roll_dice d w
  = (Ok (_adjust_roll d (sum_draws (tape w) (pos w) (Z.to_nat (number d)) (sides d))),
     advance w (Z.to_nat (number d))).
Proof.
  intros Hs. unfold roll_dice, bind. now rewrite (roll_sum_spec _ _ Hs).
Qed.

(** Without dice nothing is drawn, whatever the number of sides. *)
Lemma roll_dice_no_dice d w :
  number d <= 0 -> roll_dice d w = (Ok (_adjust_roll d 0), w).
Proof.
  intros H. unfold roll_dice, bind.
  replace (Z.to_nat (number d)) with O by lia. reflexivity.
Qed.

(** The specification that [_parse_string] gives can always be rolled. *)
Lemma roll_parsed s d w :
  _parse_string s = Ok d ->
  roll_dice d w
  = (Ok (_adjust_roll d (sum_draws (tape w) (pos w) (Z.to_nat (number d)) (sides d))),
     advance w (Z.to_nat (number d))).
Proof.
  intros H. destruct (_parse_string_valid _ _ H) as [(Hn & _) | (_ & Hs & _)].
  - rewrite roll_dice_no_dice by lia. rewrite Hn. cbn. now rewrite advance_0.
  - now apply roll_dice_spec.
Qed.

(** C1.  With a negative multiplier the adjusted roll of a raw sum [s >= 1]
    is [(s - 1) // |multiplier| + 1 + addend]; this is what [min_roll],
    [max_roll] and [roll_dice] compute from the least, the greatest and the
    drawn sum.  ["4d6/2"] parses to [{4, 6, -2, 0}], and there a raw sum of 7
    adjusts to 4. *)
Theorem adjust_roll_divisor :
  (forall d s,
      multiplier d < 0 -> 1 <= s ->
      _adjust_roll d s = (s - 1) / Z.abs (multiplier d) + 1 + addition d)
  /\ (forall d,
         multiplier d < 0 -> 1 <= number d -> 1 <= sides d ->
         min_roll d = (number d - 1) / Z.abs (multiplier d) + 1 + addition d
         /\ max_roll d
            = (number d * sides d - 1) / Z.abs (multiplier d) + 1 + addition d
         /\ forall w, exists s,
              number d <= s <= number d * sides d
              /\ roll_dice d w
                 = (Ok ((s - 1) / Z.abs (multiplier d) + 1 + addition d),
                    advance w (Z.to_nat (number d))))
  /\ _parse_string "4d6/2" = Ok (mk 4 6 (-2) 0)
  /\ _adjust_roll (mk 4 6 (-2) 0) 7 = 4.
Proof.
  assert (A : forall d s,
             multiplier d < 0 -> 1 <= s ->
             _adjust_roll d s = (s - 1) / Z.abs (multiplier d) + 1 + addition d).
  { intros d s Hm _. unfold _adjust_roll.
    destruct (Z.geb_spec (multiplier d) 0); [lia |].
    now rewrite Z.abs_neq by lia. }
  split; [exact A |]. split; [| split; reflexivity].
  intros d Hm Hn Hs. unfold min_roll, max_roll.
  rewrite !A by nia. repeat split.
  intros w. rewrite (roll_dice_spec d w Hs).
  pose proof (sum_draws_bounds (tape w) (pos w) (Z.to_nat (number d)) (sides d) Hs) as B.
  rewrite Z2Nat.id in B by lia.
  eexists. split; [exact B |]. rewrite A by lia. reflexivity.
Qed.

Lemma adjust_roll_divisor_witness :
  _adjust_roll (mk 4 6 (-2) 0) 7 = (7 - 1) / Z.abs (-2) + 1 + 0
  /\ min_roll (mk 4 6 (-2) 0) = (4 - 1) / Z.abs (-2) + 1 + 0.
Proof.
  split.
  - apply (proj1 adjust_roll_divisor (mk 4 6 (-2) 0) 7); cbn; lia.
  - apply (proj1 (proj2 adjust_roll_divisor) (mk 4 6 (-2) 0)); cbn; lia.
Defined.

(** C9.  A specification without dice rolls to its addend, whatever the
    multiplier: the empty sum is 0 and, for a negative multiplier,
    [(0 - 1) // |multiplier| + 1] is 0 under floor division. *)
Theorem roll_without_dice (d : Dice.t) (w : world) :
  number d = 0 ->
  roll_dice d w = (Ok (addition d), w)
  /\ _adjust_roll d 0 = addition d
  /\ (multiplier d < 0 -> (0 - 1) / Z.abs (multiplier d) + 1 = 0).
Proof.
  intros Hn.
  assert (F : multiplier d < 0 -> (0 - 1) / Z.abs (multiplier d) + 1 = 0).
  { intros Hm. rewrite Z.abs_neq by lia.
    assert (E : (0 - 1) / (- multiplier d) = -1)
      by (symmetry; apply Z.div_unique with (r := - multiplier d - 1); lia).
    lia. }
  assert (A : _adjust_roll d 0 = addition d).
  { unfold _adjust_roll. destruct (Z.geb_spec (multiplier d) 0) as [Hp | Hm]; [lia |].
    specialize (F Hm). rewrite Z.abs_neq in F by lia. lia. }
  repeat split; auto.
  rewrite roll_dice_no_dice by lia. now rewrite A.
Qed.

Lemma roll_without_dice_witness :
  roll_dice (mk 0 0 (-3) 5) (script [4; 2]) = (Ok 5, script [4; 2]).
Proof.
  apply (roll_without_dice (mk 0 0 (-3) 5) (script [4; 2])). reflexivity.
Defined.

End Rolling.

(* ================================================================== *)
(** * The fallback of the parser *)

Section Fallback.

Import Py Dice.




End Fallback.

(* ================================================================== *)
(** * Tables *)

Section Tables.

Import Py Table.

Lemma getitem_nonneg {A} (l : list A) i :
  0 <= i ->
  getitem l i = match nth_error l (Z.to_nat i) with
                | Some a => Ok a
                | None => Raise (IndexError "list index out of range")
                end.
Proof.
  intros H. unfold getitem.
  destruct (Z.ltb_spec i 0); [lia |]. destruct (Z.ltb_spec i 0); [lia | reflexivity].
Qed.

(** Below the length and from 1 on, indexing finds an element of the tail. *)
Lemma getitem_tail {A} (l : list A) i :
  1 <= i < len l -> exists a, getitem l i = Ok a /\ In a (tl l).
Proof.
  intros [H1 H2]. rewrite getitem_nonneg by lia.
  destruct l as [| x t]; cbn in H2; [lia |].
  replace (Z.to_nat i) with (S (Z.to_nat (i - 1))) by lia. cbn [nth_error tl].
  destruct (nth_error t (Z.to_nat (i - 1))) as [a |] eqn:E.
  - exists a. split; [reflexivity |]. eapply nth_error_In, E.
  - apply nth_error_None in E. unfold len in H2. cbn [List.length] in H2. lia.
Qed.

Lemma cell_header header rows i : cell (header :: rows) 0 i = getitem header i.
Proof. reflexivity. Qed.

(** ** Looking a name up *)

Lemma col_search_absent header rows name count i :
  ~ In name (tl header) ->
  1 <= i -> i + Z.of_nat count <= len header ->
  col_search (header :: rows) name count i = Ok (-1).
Proof.
  intros Hab. revert i. induction count as [| c IH]; intros i H1 H2; [reflexivity |].
  cbn [col_search]. rewrite cell_header.
  destruct (getitem_tail header i) as (h & -> & Hin); [lia |].
  cbn [res_bind]. destruct (String.eqb_spec h name) as [-> | _]; [contradiction |].
  apply IH; lia.
Qed.

Lemma get_col_from_name_absent header rows name :
  ~ In name (tl header) -> get_col_from_name (header :: rows) name = Ok (-1).
Proof.
  intros H. unfold get_col_from_name. cbn [getitem res_bind].
  change (getitem (header :: rows) 0) with (Ok header). cbn [res_bind].
  destruct header as [| h0 t]; [reflexivity |].
  apply col_search_absent; auto; [lia |].
  unfold len. cbn [List.length]. lia.
Qed.



(** ** Drawing a random entry *)

(** One step of either loop: draw below [bound], read the cell the draw
    designates, and return it unless it is the null marker. *)
Lemma row_attempts_S tb index k w :
  row_attempts tb index (S k) w
  = bind (Dice.roll (get_num_cols tb)) (fun roll =>
    bind (lift (cell tb index roll)) (fun entry =>
    if negb (String.eqb entry NULL_ENTRY) then ret entry
    else row_attempts tb index k)) w.
Proof. reflexivity. Qed.

Lemma col_attempts_S tb index k w :
  col_attempts tb index (S k) w
  = bind (Dice.roll (get_num_rows tb)) (fun roll =>
    bind (lift (cell tb roll index)) (fun entry =>
    if negb (String.eqb entry NULL_ENTRY) then ret entry
    else col_attempts tb index k)) w.
Proof. reflexivity. Qed.

Lemma row_attempts_sound tb index k :
  forall w v w',
    row_attempts tb index k w = (Ok v, w') ->
    exists j, 1 <= j <= get_num_cols tb
              /\ cell tb index j = Ok v /\ v <> NULL_ENTRY.
Proof.
  induction k as [| k IH]; intros w v w'; [discriminate |].
  rewrite row_attempts_S. unfold bind, lift.
  destruct (Z.ltb_spec (get_num_cols tb) 1) as [Hlt | Hge].
  - now rewrite roll_empty_range.
  - rewrite roll_ok by assumption.
    pose proof (die_range (tape w (pos w)) _ Hge) as Hj.
    destruct (cell tb index (Dice.die (tape w (pos w)) (get_num_cols tb)))
      as [entry | e] eqn:E; [| discriminate].
    destruct (String.eqb_spec entry NULL_ENTRY) as [-> | Hnn]; cbn [negb].
    + apply IH.
    + intros [= <- <-]. eauto.
Qed.

Lemma col_attempts_sound tb index k :
  forall w v w',
    col_attempts tb index k w = (Ok v, w') ->
    exists j, 1 <= j <= get_num_rows tb
              /\ cell tb j index = Ok v /\ v <> NULL_ENTRY.
Proof.
  induction k as [| k IH]; intros w v w'; [discriminate |].
  rewrite col_attempts_S. unfold bind, lift.
  destruct (Z.ltb_spec (get_num_rows tb) 1) as [Hlt | Hge].
  - now rewrite roll_empty_range.
  - rewrite roll_ok by assumption.
    pose proof (die_range (tape w (pos w)) _ Hge) as Hj.
    destruct (cell tb (Dice.die (tape w (pos w)) (get_num_rows tb)) index)
      as [entry | e] eqn:E; [| discriminate].
    destruct (String.eqb_spec entry NULL_ENTRY) as [-> | Hnn]; cbn [negb].
    + apply IH.
    + intros [= <- <-]. eauto.
Qed.

(** C4.  For every table, every in-range row (column) index and every tape
    of draws, a value that [get_random_entry_on_row]
    ([get_random_entry_on_col]) returns is the cell of the designated row
    (column) at a data index from 1 on, and it is not the null marker. *)
Theorem random_entry_not_null (tb : Table.t) (index : Z) (w w' : world) (v : string) :
  (1 <= index <= get_num_rows tb ->
   get_random_entry_on_row tb index w = (Ok v, w') ->
   exists j, 1 <= j <= get_num_cols tb
             /\ get_entry tb index j = Ok v /\ v <> NULL_ENTRY)
  /\ (1 <= index <= get_num_cols tb ->
      get_random_entry_on_col tb index w = (Ok v, w') ->
      exists j, 1 <= j <= get_num_rows tb
                /\ get_entry tb j index = Ok v /\ v <> NULL_ENTRY).
Proof.
  split; intros _ H.
  - eapply row_attempts_sound, H.
  - eapply col_attempts_sound, H.
Qed.

(** Attempts never draw more than once each. *)
Lemma row_attempts_draws tb index k :
  forall w, (pos (snd (row_attempts tb index k w)) <= k + pos w)%nat.
Proof.
  induction k as [| k IH]; intros w; [cbn; lia |].
  rewrite row_attempts_S. unfold bind, lift, Dice.roll, ret.
  destruct (get_num_cols tb <? 1); [cbn; lia |].
  destruct (cell tb index _) as [entry | e]; [| cbn; lia].
  destruct (negb (String.eqb entry NULL_ENTRY)); [cbn; lia |].
  etransitivity; [apply IH |]. cbn. lia.
Qed.

Lemma col_attempts_draws tb index k :
  forall w, (pos (snd (col_attempts tb index k w)) <= k + pos w)%nat.
Proof.
  induction k as [| k IH]; intros w; [cbn; lia |].
  rewrite col_attempts_S. unfold bind, lift, Dice.roll, ret.
  destruct (get_num_rows tb <? 1); [cbn; lia |].
  destruct (cell tb _ index) as [entry | e]; [| cbn; lia].
  destruct (negb (String.eqb entry NULL_ENTRY)); [cbn; lia |].
  etransitivity; [apply IH |]. cbn. lia.
Qed.

(** On a row of null markers every attempt is spent, and then the search
    gives up. *)
Lemma row_attempts_all_null tb index k :
  1 <= get_num_cols tb ->
  (forall j, 1 <= j <= get_num_cols tb -> cell tb index j = Ok NULL_ENTRY) ->
  forall w, row_attempts tb index k w = (Raise (exhausted "row" index), advance w k).
Proof.
  intros Hc Hnull. induction k as [| k IH]; intros w.
  - cbn. now rewrite advance_0.
  - rewrite row_attempts_S. unfold bind, lift.
    rewrite roll_ok, Hnull by (auto using die_range).
    cbn [String.eqb negb]. rewrite String.eqb_refl. cbn [negb].
    rewrite IH, advance_advance. reflexivity.
Qed.

Lemma col_attempts_all_null tb index k :
  1 <= get_num_rows tb ->
  (forall j, 1 <= j <= get_num_rows tb -> cell tb j index = Ok NULL_ENTRY) ->
  forall w, col_attempts tb index k w = (Raise (exhausted "column" index), advance w k).
Proof.
  intros Hc Hnull. induction k as [| k IH]; intros w.
  - cbn. now rewrite advance_0.
  - rewrite col_attempts_S. unfold bind, lift.
    rewrite roll_ok, Hnull by (auto using die_range).
    rewrite String.eqb_refl. cbn [negb].
    rewrite IH, advance_advance. reflexivity.
Qed.

End Tables.

Lemma random_entry_not_null_witness :
  let tb := [[""; "A"; "B"]; ["r1"; "-"; "x"]]%string in
  (exists j, 1 <= j <= Table.get_num_cols tb
             /\ Table.get_entry tb 1 j = Py.Ok "x"%string
             /\ "x"%string <> Table.NULL_ENTRY)
  /\ (exists j, 1 <= j <= Table.get_num_rows tb
                /\ Table.get_entry tb j 2 = Py.Ok "x"%string
                /\ "x"%string <> Table.NULL_ENTRY).
Proof.
  intros tb. split.
  - apply (proj1 (random_entry_not_null tb 1 (script [1; 2]) (advance (script [1; 2]) 2) "x"));
      [cbn; lia | reflexivity].
  - apply (proj2 (random_entry_not_null tb 2 (script [1]) (advance (script [1]) 1) "x"));
      [cbn; lia | reflexivity].
Defined.

(* ================================================================== *)
(** * Resolving an encounter *)

Section Resolution.

Import Py Dice Table Sim.

Lemma handle_npc_type_other name w :
  npc_level name = 0 -> handle_npc_type name w = (Ok 0, w).
Proof. intros H. unfold handle_npc_type. now rewrite H. Qed.

(** Two six-sided dice without modifiers. *)
Lemma roll_2d6 w :
  roll_dice (Dice.mk 2 6 1 0) w
  = (Ok (die (tape w (pos w)) 6 + die (tape w (S (pos w))) 6), advance w 2).
Proof.
  unfold roll_dice, bind.
  change (Z.to_nat (number (Dice.mk 2 6 1 0))) with 2%nat.
  rewrite roll_sum_spec by (cbn; lia).
  cbn [sum_draws sides]. unfold _adjust_roll, ret. cbn [multiplier addition].
  change (1 >=? 0) with true. cbv iota. do 2 f_equal. lia.
Qed.

(** The entourage: two six-sided dice give a number, and that many
    four-sided dice are summed. *)
Lemma get_npc_entourage_spec w :
  let n := Z.to_nat (die (tape w (pos w)) 6 + die (tape w (S (pos w))) 6) in
  get_npc_entourage w = (Ok (sum_draws (tape w) (2 + pos w) n 4), advance w (2 + n)).
Proof.
  intros n. unfold get_npc_entourage, bind.
  rewrite roll_2d6. fold n.
  rewrite roll_sum_spec by lia. rewrite advance_advance.
  cbn [tape pos advance]. reflexivity.
Qed.

Lemma npc_types_level name level :
  In (name, level) npc_types -> npc_level name = level /\ 8 <= level.
Proof.
  unfold npc_types. cbn [In].
  intros H. repeat (destruct H as [[= <- <-] | H]; [split; [reflexivity | lia] |]).
  contradiction.
Qed.

(** C3.  For an NPC archetype the resolution is its base level plus the
    entourage: [n], one roll of two six-sided dice, four-sided dice are drawn
    and summed.  The monster database is not consulted: the outcome is the
    same for every simulator.  For ["Lord"] with an entourage roll of 2 and
    four-sided draws of 3 and 4 the outcome is 16. *)
Theorem npc_short_circuit (name : string) (level : Z) :
  In (name, level) npc_types ->
  (forall (self : Sim.t) (w : world),
      let n := Z.to_nat (die (tape w (pos w)) 6 + die (tape w (S (pos w))) 6) in
      roll_encounter_by_monster self name w
      = (Ok (level + sum_draws (tape w) (2 + pos w) n 4), advance w (2 + n)))
  /\ (forall self : Sim.t,
         roll_encounter_by_monster self "Lord" (script [1; 1; 3; 4])
         = (Ok 16, advance (script [1; 1; 3; 4]) 4)).
Proof.
  intros Hin. destruct (npc_types_level _ _ Hin) as (Hl & H8).
  assert (G : forall (self : Sim.t) (w : world),
             let n := Z.to_nat (die (tape w (pos w)) 6 + die (tape w (S (pos w))) 6) in
             forall name level, npc_level name = level -> 8 <= level ->
             roll_encounter_by_monster self name w
             = (Ok (level + sum_draws (tape w) (2 + pos w) n 4), advance w (2 + n))).
  { intros self w n nm lv Hlv Hge.
    unfold roll_encounter_by_monster, bind at 1. unfold handle_npc_type.
    rewrite Hlv. destruct (Z.eqb_spec lv 0); [lia |].
    unfold bind at 1. rewrite get_npc_entourage_spec. fold n. unfold ret at 1.
    pose proof (sum_draws_bounds (tape w) (2 + pos w) n 4 ltac:(lia)).
    destruct (Z.gtb_spec (lv + sum_draws (tape w) (2 + pos w) n 4) 0); [reflexivity | lia]. }
  split.
  - intros self w n. now apply G.
  - intros self. apply (G self (script [1; 1; 3; 4]) "Lord"%string 9); [reflexivity | lia].
Qed.

Lemma npc_short_circuit_witness :
  roll_encounter_by_monster (Sim.mk [] [] [] "Plains" 1) "Wizard" (script [1; 2; 4; 4; 1])
  = (Ok (11 + 9), advance (script [1; 2; 4; 4; 1]) 5).
Proof.
  apply (proj1 (npc_short_circuit "Wizard" 11 ltac:(cbn; auto))
           (Sim.mk [] [] [] "Plains" 1) (script [1; 2; 4; 4; 1])).
Defined.

(** ** Unknown names *)





(** ** Looking a monster up *)

(** The resolution of a monster that the database has, with the cells of
    its row. *)
Lemma roll_encounter_known_monster self name w i num_cell ehd_cell hdn_cell d :
  npc_level name = 0 ->
  get_row_from_name (monster_table self) name = Ok i -> 1 <= i ->
  get_entry (monster_table self) i MONSTER_NUM_COL = Ok num_cell ->
  get_entry (monster_table self) i MONSTER_EHD_COL = Ok ehd_cell ->
  get_entry (monster_table self) i MONSTER_HDN_COL = Ok hdn_cell ->
  _parse_string num_cell = Ok d ->
  let count := _adjust_roll d (sum_draws (tape w) (pos w) (Z.to_nat (number d)) (sides d)) in
  let w1 := advance w (Z.to_nat (number d)) in
  let ehd := ehd_fixup name (str_to_int ehd_cell) in
  roll_dice d w = (Ok count, w1)
  /\ roll_encounter_by_monster self name w
     = (Ok (if float_le (str_to_dbl hdn_cell) one then count * ehd / 4 else count * ehd),
        if ehd =? 0 then logged w1 ("Monster with null EHD: " ++ name) else w1).
Proof.
  intros Hn Hi Hi1 Hnum Hehd Hhdn Hd count w1 ehd.
  pose proof (roll_parsed _ _ w Hd) as Hroll. fold count w1 in Hroll.
  split; [exact Hroll |].
  unfold roll_encounter_by_monster, bind at 1.
  rewrite (handle_npc_type_other _ _ Hn). cbn [Z.gtb Z.compare].
  unfold bind, lift. rewrite Hi.
  destruct (Z.ltb_spec i 1); [lia |].
  rewrite Hnum, Hd, Hroll, Hehd. fold ehd.
  destruct (ehd =? 0); cbn [eprint ret]; rewrite Hhdn; reflexivity.
Qed.

(** C2.  When the monster is found in the database and its hit-dice-number
    cell parses to a float that is [<= 1.0], the total is the rolled count
    times the effective difficulty, floor-divided by 4. *)
Theorem sweep_attack_correction
    (self : Sim.t) (name : string) (w : world) (i : Z)
    (num_cell ehd_cell hdn_cell : string) (x : spec_float) :
  npc_level name = 0 ->
  get_row_from_name (monster_table self) name = Ok i -> 1 <= i ->
  get_entry (monster_table self) i MONSTER_NUM_COL = Ok num_cell ->
  get_entry (monster_table self) i MONSTER_EHD_COL = Ok ehd_cell ->
  get_entry (monster_table self) i MONSTER_HDN_COL = Ok hdn_cell ->
  Py.float hdn_cell = Some x -> float_le x one = true ->
  exists d count w1,
    _parse_string num_cell = Ok d
    /\ roll_dice d w = (Ok count, w1)
    /\ fst (roll_encounter_by_monster self name w)
       = Ok (count * ehd_fixup name (str_to_int ehd_cell) / 4).
Proof.
  intros Hn Hi Hi1 Hnum Hehd Hhdn Hx Hle.
  destruct (_parse_string_total num_cell) as (d & Hd).
  destruct (roll_encounter_known_monster self name w i _ _ _ d Hn Hi Hi1 Hnum Hehd Hhdn Hd)
    as (Hroll & Hres).
  do 3 eexists. split; [exact Hd |]. split; [exact Hroll |].
  rewrite Hres. unfold str_to_dbl. rewrite Hx, Hle. reflexivity.
Qed.

Lemma sweep_attack_correction_witness :
  (exists d count w1,
      _parse_string "3" = Ok d
      /\ roll_dice d (script []) = (Ok count, w1)
      /\ fst (roll_encounter_by_monster (Sim.mk [] [] kobold_db "Plains" 1) "Kobold" (script []))
         = Ok (count * ehd_fixup "Kobold" (str_to_int "8") / 4))
  /\ roll_encounter_by_monster (Sim.mk [] [] kobold_db "Plains" 1) "Kobold" (script [])
     = (Ok 6, script []).
Proof.
  split; [| reflexivity].
  apply (sweep_attack_correction (Sim.mk [] [] kobold_db "Plains" 1) "Kobold" (script []) 1
           "3" "8" "0.5" (S754_finite false 4503599627370496 (-53)));
    solve [reflexivity | lia].
Defined.

(** C10.  A hit-dice-number cell that [float] rejects, a blank one among
    them, is taken as 0.0; this is [<= 1.0], so the total is floor-divided
    by 4. *)
Theorem unparsable_hit_dice_number
    (self : Sim.t) (name : string) (w : world) (i : Z)
    (num_cell ehd_cell hdn_cell : string) :
  npc_level name = 0 ->
  get_row_from_name (monster_table self) name = Ok i -> 1 <= i ->
  get_entry (monster_table self) i MONSTER_NUM_COL = Ok num_cell ->
  get_entry (monster_table self) i MONSTER_EHD_COL = Ok ehd_cell ->
  get_entry (monster_table self) i MONSTER_HDN_COL = Ok hdn_cell ->
  Py.float hdn_cell = None ->
  Py.float "" = None
  /\ str_to_dbl hdn_cell = S754_zero false
  /\ float_le (str_to_dbl hdn_cell) one = true
  /\ exists d count w1,
       _parse_string num_cell = Ok d
       /\ roll_dice d w = (Ok count, w1)
       /\ fst (roll_encounter_by_monster self name w)
          = Ok (count * ehd_fixup name (str_to_int ehd_cell) / 4).
Proof.
  intros Hn Hi Hi1 Hnum Hehd Hhdn Hx.
  assert (Hz : str_to_dbl hdn_cell = S754_zero false)
    by (unfold str_to_dbl; now rewrite Hx).
  split; [reflexivity |]. split; [exact Hz |].
  split; [rewrite Hz; reflexivity |].
  destruct (_parse_string_total num_cell) as (d & Hd).
  destruct (roll_encounter_known_monster self name w i _ _ _ d Hn Hi Hi1 Hnum Hehd Hhdn Hd)
    as (Hroll & Hres).
  do 3 eexists. split; [exact Hd |]. split; [exact Hroll |].
  rewrite Hres, Hz. reflexivity.
Qed.

Lemma unparsable_hit_dice_number_witness :
  float_le (str_to_dbl "") one = true
  /\ roll_encounter_by_monster (Sim.mk [] [] blank_hdn_db "Plains" 1) "Ooze" (script [])
     = (Ok 5, advance (script []) 2).
Proof.
  split; [| reflexivity].
  apply (unparsable_hit_dice_number (Sim.mk [] [] blank_hdn_db "Plains" 1) "Ooze" (script []) 1
           "2d1" "10" ""); solve [reflexivity | lia].
Defined.

(** ** Exhausted sampling *)

Lemma roll_encounter_exhausted self name w c :
  get_col_from_name (sub_table self) name = Ok c -> 1 <= c ->
  1 <= get_num_rows (sub_table self) ->
  (forall j, 1 <= j <= get_num_rows (sub_table self) ->
             get_entry (sub_table self) j c = Ok NULL_ENTRY) ->
  roll_encounter_by_sub_table self name w
  = (Raise (exhausted "column" c), advance w max_attempts).
Proof.
  intros Hc Hc1 Hr Hnull. unfold roll_encounter_by_sub_table, bind at 1. unfold lift.
  rewrite Hc. destruct (Z.ltb_spec c 1); [lia |].
  unfold bind, get_random_entry_on_col.
  now rewrite (col_attempts_all_null _ _ _ Hr Hnull).
Qed.

(** C5.  Both searches stop after at most 1000 draws.  On a row (column)
    with at least one data cell whose data cells are all the null marker they
    make exactly 1000 draws and raise a [ValueError] that says that no
    non-null entry was found.  That is not the sentinel -1 of an unknown
    name: a resolution that meets it raises, where an unknown name makes it
    return 0. *)
Theorem random_entry_bounded (tb : Table.t) (index : Z) (w : world) :
  (pos (snd (get_random_entry_on_row tb index w)) <= 1000 + pos w)%nat
  /\ (pos (snd (get_random_entry_on_col tb index w)) <= 1000 + pos w)%nat
  /\ (1 <= get_num_cols tb ->
      (forall j, 1 <= j <= get_num_cols tb -> get_entry tb index j = Ok NULL_ENTRY) ->
      get_random_entry_on_row tb index w
      = (Raise (ValueError ("No non-null entries found in row " ++ str index
                            ++ " after 1000 attempts")),
         advance w 1000))
  /\ (1 <= get_num_rows tb ->
      (forall j, 1 <= j <= get_num_rows tb -> get_entry tb j index = Ok NULL_ENTRY) ->
      get_random_entry_on_col tb index w
      = (Raise (ValueError ("No non-null entries found in column " ++ str index
                            ++ " after 1000 attempts")),
         advance w 1000)
      /\ forall self name,
           sub_table self = tb ->
           get_col_from_name tb name = Ok index -> 1 <= index ->
           roll_encounter_by_sub_table self name w
           = (Raise (ValueError ("No non-null entries found in column " ++ str index
                                 ++ " after 1000 attempts")),
              advance w 1000)).
Proof.
  split; [apply row_attempts_draws |].
  split; [apply col_attempts_draws |].
  split.
  - intros Hc Hnull. unfold get_random_entry_on_row.
    now rewrite (row_attempts_all_null _ _ _ Hc Hnull).
  - intros Hr Hnull. split.
    + unfold get_random_entry_on_col.
      now rewrite (col_attempts_all_null _ _ _ Hr Hnull).
    + intros self name <- Hc Hc1.
      now rewrite (roll_encounter_exhausted self name w index Hc Hc1 Hr Hnull).
Qed.

Lemma random_entry_bounded_witness :
  let tb := [[""; "A"; "B"]; ["r1"; "-"; "-"]; ["r2"; "-"; "x"]]%string in
  get_random_entry_on_row tb 1 (script [2; 1])
  = (Raise (ValueError "No non-null entries found in row 1 after 1000 attempts"),
     advance (script [2; 1]) 1000)
  /\ get_random_entry_on_col tb 1 (script [2; 1])
     = (Raise (ValueError "No non-null entries found in column 1 after 1000 attempts"),
        advance (script [2; 1]) 1000).
Proof.
  intros tb.
  assert (C : forall j, 1 <= j <= 2 -> j = 1 \/ j = 2) by lia.
  split.
  - apply (proj1 (proj2 (proj2 (random_entry_bounded tb 1 (script [2; 1]))))).
    + cbn. lia.
    + intros j Hj. destruct (C j Hj) as [-> | ->]; reflexivity.
  - apply (proj2 (proj2 (proj2 (random_entry_bounded tb 1 (script [2; 1]))))).
    + cbn. lia.
    + intros j Hj. destruct (C j Hj) as [-> | ->]; reflexivity.
Defined.

End Resolution.

(* ================================================================== *)
(** * More on rolling: bounds, floors and modifiers *)

Section RollBounds.

Import Py Dice.

(** The adjustment never reverses the order of two raw sums. *)
Lemma adjust_mono d a b : a <= b -> _adjust_roll d a <= _adjust_roll d b.
Proof.
  intros H. unfold _adjust_roll.
  destruct (Z.geb_spec (multiplier d) 0) as [Hp | Hn].
  - nia.
  - pose proof (Z.div_le_mono (a - 1) (b - 1) (- multiplier d)). lia.
Qed.

Lemma min_le_max d :
  0 <= number d -> 1 <= sides d -> min_roll d <= max_roll d.
Proof. intros Hn Hs. unfold min_roll, max_roll. apply adjust_mono. nia. Qed.

(** X1.  With a negative multiplier the adjustment before the addend is the
    ceiling of [roll / |multiplier|], for every integer [roll]: the least
    [q] with [roll <= |multiplier| * q]. *)
Theorem adjust_roll_ceiling (d : Dice.t) (roll : Z) :
  multiplier d < 0 ->
  let q := _adjust_roll d roll - addition d in
  Z.abs (multiplier d) * (q - 1) < roll <= Z.abs (multiplier d) * q.
Proof.
  intros Hm q. subst q. unfold _adjust_roll.
  destruct (Z.geb_spec (multiplier d) 0); [lia |].
  rewrite Z.abs_neq by lia.
  pose proof (Z.div_mod (roll - 1) (- multiplier d) ltac:(lia)).
  pose proof (Z.mod_pos_bound (roll - 1) (- multiplier d) ltac:(lia)).
  nia.
Qed.

Lemma adjust_roll_ceiling_witness :
  let q := _adjust_roll (mk 4 6 (-3) 2) 10 - 2 in
  Z.abs (-3) * (q - 1) < 10 <= Z.abs (-3) * q.
Proof. apply (adjust_roll_ceiling (mk 4 6 (-3) 2) 10). reflexivity. Defined.

Lemma roll_in_bounds d w :
  0 <= number d -> 1 <= sides d ->
  exists r,
    roll_dice d w = (Ok r, advance w (Z.to_nat (number d)))
    /\ min_roll d <= r <= max_roll d.
Proof.
  intros Hn Hs. rewrite (roll_dice_spec d w Hs). eexists. split; [reflexivity |].
  pose proof (sum_draws_bounds (tape w) (pos w) (Z.to_nat (number d)) (sides d) Hs) as B.
  rewrite Z2Nat.id in B by assumption.
  unfold min_roll, max_roll. split; apply adjust_mono; lia.
Qed.

(** X2.  A specification with a nonnegative count and at least one side
    rolls without raising, draws once per die, and the roll lies between
    [min_roll] and [max_roll]. *)
Theorem roll_between_min_max (d : Dice.t) (w : world) :
  0 <= number d -> 1 <= sides d ->
  exists r,
    roll_dice d w = (Ok r, advance w (Z.to_nat (number d)))
    /\ min_roll d <= r <= max_roll d.
Proof. apply roll_in_bounds. Qed.

Lemma roll_between_min_max_witness :
  exists r,
    roll_dice (mk 2 8 2 (-1)) (script [5; 13]) = (Ok r, advance (script [5; 13]) 2)
    /\ min_roll (mk 2 8 2 (-1)) <= r <= max_roll (mk 2 8 2 (-1)).
Proof. apply (roll_between_min_max (mk 2 8 2 (-1)) (script [5; 13])); cbn; lia. Defined.

(** X3.  Under the same conditions [avg_roll] lies between [min_roll] and
    [max_roll]. *)
Theorem avg_roll_between (d : Dice.t) :
  0 <= number d -> 1 <= sides d ->
  min_roll d <= avg_roll d <= max_roll d.
Proof.
  intros Hn Hs. pose proof (min_le_max d Hn Hs). unfold avg_roll.
  split.
  - apply Z.div_le_lower_bound; lia.
  - apply Z.div_le_upper_bound; lia.
Qed.

Lemma avg_roll_between_witness :
  min_roll (mk 3 6 (-2) 1) <= avg_roll (mk 3 6 (-2) 1) <= max_roll (mk 3 6 (-2) 1).
Proof. apply (avg_roll_between (mk 3 6 (-2) 1)); cbn; lia. Defined.



(** X5.  A specification with at least one die and fewer than one side
    cannot be rolled: [roll_dice] raises the [ValueError] of the generator
    before anything is drawn. *)
Theorem roll_dice_without_sides (d : Dice.t) (w : world) :
  1 <= number d -> sides d < 1 ->
  roll_dice d w = (Raise (ValueError "empty range for randrange()"), w).
Proof.
  intros Hn Hs. unfold roll_dice, bind.
  destruct (Z.to_nat (number d)) as [| n] eqn:E; [lia |].
  cbn [roll_sum]. unfold bind. now rewrite (roll_empty_range _ _ Hs).
Qed.

Lemma roll_dice_without_sides_witness :
  roll_dice (mk 2 0 1 0) (script [3])
  = (Raise (ValueError "empty range for randrange()"), script [3]).
Proof. apply (roll_dice_without_sides (mk 2 0 1 0) (script [3])); cbn; lia. Defined.

(** X6.  [modify_add] shifts every adjusted roll, and with it [min_roll],
    [max_roll], [avg_roll] and the outcome of [roll_dice], by the
    modification; two modifications add up. *)
Theorem modify_add_shifts (d : Dice.t) (a b : Z) (w : world) :
  (forall roll, _adjust_roll (modify_add d a) roll = _adjust_roll d roll + a)
  /\ min_roll (modify_add d a) = min_roll d + a
  /\ max_roll (modify_add d a) = max_roll d + a
  /\ avg_roll (modify_add d a) = avg_roll d + a
  /\ roll_dice (modify_add d a) w
     = (let (r, w') := roll_dice d w in
        (match r with Ok x => Ok (x + a) | Raise e => Raise e end, w'))
  /\ modify_add (modify_add d a) b = modify_add d (a + b).
Proof.
  assert (A : forall roll, _adjust_roll (modify_add d a) roll = _adjust_roll d roll + a).
  { intros roll. unfold _adjust_roll, modify_add. cbn [multiplier addition]. lia. }
  split; [exact A |].
  assert (Hmin : min_roll (modify_add d a) = min_roll d + a) by apply A.
  assert (Hmax : max_roll (modify_add d a) = max_roll d + a) by apply A.
  repeat split; auto.
  - unfold avg_roll. rewrite Hmin, Hmax.
    replace (min_roll d + a + (max_roll d + a)) with (min_roll d + max_roll d + a * 2) by lia.
    now rewrite Z.div_add by lia.
  - unfold roll_dice, bind. cbn [modify_add number sides].
    destruct (roll_sum (Z.to_nat (number d)) (sides d) 0 w) as [[total | e] w'];
      [| reflexivity].
    unfold ret. now rewrite <- A.
  - unfold modify_add. cbn [number sides multiplier addition]. f_equal. lia.
Qed.

End RollBounds.

(* ================================================================== *)
(** * More on notation: constants, canonical form, defaults *)

Section Canonical.

Import Py Dice.

Lemma int_unsigned_digits s :
  all_digits s = true -> s <> EmptyString ->
  int_unsigned s = Some (digits_value s 0).
Proof.
  intros Hd Hne. destruct s as [| c t]; [congruence |].
  cbn [all_digits] in Hd. apply andb_true_iff in Hd as [Hc Ht].
  cbn [int_unsigned digits_value]. rewrite Hc.
  rewrite (int_body_digits _ _ Ht). reflexivity.
Qed.

(** [int(str(n)) == n] for every integer. *)
Lemma int_str n : int (str n) = Some n.
Proof.
  destruct (Z.ltb_spec n 0) as [Hneg | Hpos].
  - rewrite str_neg by assumption.
    destruct (str_nat_digits (- n)) as (Hd & Hne & Hv); [lia |].
    unfold int, strip. cbn [lstrip]. change (is_space "-") with false. cbv iota.
    cbn [rstrip]. rewrite (rstrip_digits _ Hd).
    destruct (str_nat (- n)) as [| c t] eqn:E; [congruence |].
    change (Ascii.eqb "-" "+") with false. change (Ascii.eqb "-" "-") with true.
    cbv iota. rewrite (int_unsigned_digits _ Hd Hne), Hv. cbn. f_equal. lia.
  - rewrite str_nonneg by assumption. now apply int_str_nat.
Qed.

(** The text of an integer never matches the pattern. *)
Lemma scan_digits s : all_digits s = true -> scan s = None.
Proof.
  intros Hd. unfold scan.
  destruct (posnum s) as [[n r] |] eqn:E.
  - pose proof (posnum_spec _ _ _ E) as (Hs & Hn & _).
    assert (r = EmptyString).
    { apply is_posnum_all_digits in Hn.
      pose proof (span_digits_app s EmptyString Hd eq_refl) as S1.
      rewrite append_nil_r in S1.
      rewrite Hs in Hd. rewrite all_digits_app in Hd.
      apply andb_true_iff in Hd as [_ Hr].
      destruct s as [| c t]; [discriminate |]. cbn [posnum] in E.
      destruct (is_digit19 c); [| discriminate].
      cbn [all_digits] in Hr.
      pose proof (span_digits_spec t) as S2. destruct (span_digits t) as [ds r'].
      injection E as <- <-. destruct S2 as (_ & _ & Hh).
      destruct r' as [| x r']; [reflexivity |].
      cbn [no_digit_head] in Hh. cbn [all_digits] in Hr.
      apply andb_true_iff in Hr as [Hx _]. rewrite Hx in Hh. discriminate. }
    subst r. reflexivity.
  - destruct s as [| c t]; [reflexivity |].
    cbn [all_digits] in Hd. apply andb_true_iff in Hd as [Hc _].
    now rewrite (digit_neq c "d" Hc eq_refl).
Qed.

Lemma scan_str n : scan (str n) = None.
Proof.
  destruct (Z.ltb_spec n 0) as [Hneg | Hpos].
  - rewrite str_neg by assumption. reflexivity.
  - rewrite str_nonneg by assumption. apply scan_digits.
    now destruct (str_nat_digits n Hpos).
Qed.

Lemma parse_str_constant d :
  number d <= 0 -> _parse_string (__str__ d) = Ok (mk 0 0 1 (addition d)).
Proof.
  intros H. unfold __str__. destruct (Z.gtb_spec (number d) 0); [lia |].
  rewrite (parse_unmatched _ (scan_str _)). unfold constant_of.
  now rewrite int_str.
Qed.

Lemma parse_parts cnt number sides m a :
  (cnt = EmptyString /\ number = 1 \/ 1 <= number /\ cnt = str number) ->
  1 <= sides -> m <> 0 ->
  _parse_string (cnt ++ String "d" (str sides ++ mult_text m ++ add_text a))
  = Ok (mk number sides m a).
Proof.
  intros Hc Hs Hm.
  rewrite (str_nonneg sides) by lia.
  destruct (mult_text_spec _ Hm) as (Hms & Hmv).
  destruct (add_text_spec a) as (Has & Hav).
  destruct (str_nat_digits sides) as (_ & _ & Hsv); [lia |].
  assert (Hsd : is_posnum (str_nat sides) = true) by (apply str_nat_posnum; lia).
  assert (Hcnt : (cnt = EmptyString \/ is_posnum cnt = true)
                 /\ count_of (group cnt) = number).
  { destruct Hc as [(-> & ->) | (Hn & ->)]; [split; auto |].
    rewrite str_nonneg by lia. split; [right; apply str_nat_posnum; lia |].
    destruct (str_nat_digits number) as (_ & Hne & Hnv); [lia |].
    destruct (str_nat number); [congruence | exact Hnv]. }
  destruct Hcnt as (Hcs & Hcv).
  rewrite (parse_matched _ _ _ (scan_parts _ _ _ _ Hcs Hsd Hms Has)).
  cbn [group1 group2 group3 group4]. now rewrite Hmv, Hav, Hsv, Hcv.
Qed.

Lemma parse_str_dice d :
  number d > 0 -> sides d >= 1 -> multiplier d <> 0 ->
  _parse_string (__str__ d) = Ok d.
Proof.
  intros Hn Hs Hm. rewrite (str_with_dice d Hn).
  rewrite (parse_parts (str (number d)) (number d) (sides d)
             (multiplier d) (addition d));
    [now destruct d | right; split; [lia | reflexivity] | lia | assumption].
Qed.



(** X8.  Formatting is canonical on what the parser produces: whatever the
    input, writing the parsed specification and parsing the text again gives
    the same specification. *)
Theorem parse_format_parse (s : string) (d : Dice.t) :
  _parse_string s = Ok d -> _parse_string (__str__ d) = Ok d.
Proof.
  intros H. destruct (_parse_string_valid _ _ H) as [(Hn & Hs & Hm) | (Hn & Hs & Hm)].
  - rewrite parse_str_constant by lia. destruct d as [n sd m a].
    cbn in *. now subst.
  - apply parse_str_dice; lia.
Qed.

Lemma parse_format_parse_witness :
  _parse_string (__str__ (mk 1 20 1 0)) = Ok (mk 1 20 1 0)
  /\ __str__ (mk 1 20 1 0) = "1d20".
Proof.
  split; [| reflexivity].
  apply (parse_format_parse "d20 (save)" (mk 1 20 1 0)). reflexivity.
Defined.


End Canonical.

(* ================================================================== *)
(** * More on notation: what follows a match *)

Section Trailing.

Import Py Dice.

Lemma inert_head_spec r :
  inert_head r = true ->
  no_digit_head r = true
  /\ opt_multiplier r = (None, r) /\ opt_addition r = (None, r).
Proof.
  destruct r as [| c r]; [now cbn |]. cbn [inert_head no_digit_head].
  intros H. apply negb_true_iff in H.
  repeat (apply orb_false_iff in H; destruct H as [H ?]).
  cbn [opt_multiplier opt_addition].
  repeat match goal with E : _ = false |- _ => rewrite E; clear E end.
  now cbn.
Qed.

(** The matcher on a string of the language followed by inert text: the
    groups are the parts of the string and the text is left over. *)
Lemma scan_parts_rest cnt sd m a r :
  (cnt = EmptyString \/ is_posnum cnt = true) ->
  is_posnum sd = true ->
  mult_shape (group m) -> add_shape (group a) ->
  inert_head r = true ->
  scan (cnt ++ String "d" (sd ++ m ++ a ++ r))
  = Some (mkGroups (group cnt) sd (group m) (group a), r).
Proof.
  intros Hc Hsd Hm Ha Hr.
  destruct (inert_head_spec r Hr) as (Hrh & Hrm & Hra).
  assert (Ha' : no_digit_head (a ++ r) = true
                /\ opt_multiplier (a ++ r) = (None, (a ++ r)%string)
                /\ opt_addition (a ++ r) = (group a, r)).
  { destruct a as [| sg ds]; [cbn [append group]; auto |].
    destruct Ha as (sg' & ds' & [= <- <-] & Hsg & Hd & Hne).
    cbn [append no_digit_head opt_multiplier opt_addition group].
    repeat split.
    - destruct Hsg as [-> | ->]; reflexivity.
    - destruct Hsg as [-> | ->]; reflexivity.
    - replace (Ascii.eqb sg "+" || Ascii.eqb sg "-") with true
        by (destruct Hsg as [-> | ->]; reflexivity).
      rewrite (span_digits_app ds r Hd Hrh).
      destruct ds; [congruence | reflexivity]. }
  destruct Ha' as (Hah & Ham & Hg4).
  assert (Hm' : no_digit_head (m ++ a ++ r) = true
                /\ opt_multiplier (m ++ a ++ r) = (group m, (a ++ r)%string)).
  { destruct m as [| op n]; [cbn [append group]; auto |].
    destruct Hm as (op' & n' & [= <- <-] & Hop & Hn).
    cbn [append no_digit_head opt_multiplier group].
    split; [destruct Hop as [-> | ->]; reflexivity |].
    replace (Ascii.eqb op "/" || Ascii.eqb op "x") with true
      by (destruct Hop as [-> | ->]; reflexivity).
    now rewrite (posnum_app n (a ++ r) Hn Hah). }
  destruct Hm' as (Hmh & Hg3).
  assert (H1 : (match posnum (cnt ++ String "d" (sd ++ m ++ a ++ r)) with
                | Some (n, r0) => (Some n, r0)
                | None => (None, (cnt ++ String "d" (sd ++ m ++ a ++ r))%string)
                end) = (group cnt, String "d" (sd ++ m ++ a ++ r))).
  { destruct Hc as [-> | Hc]; [reflexivity |].
    rewrite (posnum_app cnt (String "d" (sd ++ m ++ a ++ r)) Hc eq_refl).
    now destruct cnt. }
  unfold scan. rewrite H1. cbn [Ascii.eqb Bool.eqb].
  change (Ascii.eqb "d" "d") with true. cbv iota.
  now rewrite (posnum_app sd _ Hsd Hmh), Hg3, Hg4.
Qed.

(** X10.  The parser reads the notation at the start of its input and
    ignores what follows it: a string of the language followed by text that
    begins with neither a digit nor [x], [/], [+] or [-] parses as the string
    of the language alone. *)
Theorem parse_ignores_trailing (p r : string) :
  dice_notation p -> inert_head r = true ->
  _parse_string (p ++ r) = _parse_string p.
Proof.
  intros (cnt & sd & m & a & -> & Hc & Hsd & Hm & Ha) Hr.
  rewrite (parse_matched _ _ _ (scan_parts cnt sd m a Hc Hsd Hm Ha)).
  rewrite !append_assoc. cbn [append]. rewrite !append_assoc.
  now rewrite (parse_matched _ _ _ (scan_parts_rest cnt sd m a r Hc Hsd Hm Ha Hr)).
Qed.

Lemma parse_ignores_trailing_witness :
  _parse_string ("2d8x2-1" ++ " hit points") = _parse_string "2d8x2-1".
Proof.
  apply (parse_ignores_trailing "2d8x2-1" " hit points"); [| reflexivity].
  exists "2", "8", "x2", "-1". repeat split.
  - now right.
  - exists "x"%char, "2". now repeat split; auto.
  - exists "-"%char, "1". repeat split; auto. discriminate.
Defined.



(** X12.  What [__str__] writes for a specification with [count > 0],
    [sides >= 1] and a nonzero multiplier is a string of the language of the
    pattern, and the matcher consumes it whole. *)
Theorem format_is_notation (d : Dice.t) :
  number d > 0 -> sides d >= 1 -> multiplier d <> 0 ->
  dice_notation (__str__ d)
  /\ exists g, scan (__str__ d) = Some (g, EmptyString).
Proof.
  intros Hn Hs Hm.
  assert (N : dice_notation (__str__ d)).
  { rewrite (str_with_dice d Hn), !str_nonneg by lia.
    exists (str_nat (number d)), (str_nat (sides d)),
      (mult_text (multiplier d)), (add_text (addition d)).
    split; [reflexivity |].
    split; [right; apply str_nat_posnum; lia |].
    split; [apply str_nat_posnum; lia |].
    split; [apply (mult_text_spec _ Hm) | apply add_text_spec]. }
  split; [exact N | now apply scan_full].
Qed.

Lemma format_is_notation_witness :
  dice_notation (__str__ (mk 4 6 (-2) 0))
  /\ exists g, scan (__str__ (mk 4 6 (-2) 0)) = Some (g, EmptyString).
Proof. apply (format_is_notation (mk 4 6 (-2) 0)); cbn; lia. Defined.

End Trailing.

(* ================================================================== *)
(** * More on tables: finding names *)

Section Lookup.

Import Py Table.

Lemma row_search_search tb name count i :
  row_search tb name count i = search (fun k => cell tb k 0) name count i.
Proof.
  revert i. induction count as [| c IH]; intros i; [reflexivity |].
  cbn [row_search search]. destruct (cell tb i 0) as [h | e]; [| reflexivity].
  cbn [res_bind]. now rewrite IH.
Qed.

Lemma col_search_search tb name count i :
  col_search tb name count i = search (fun k => cell tb 0 k) name count i.
Proof.
  revert i. induction count as [| c IH]; intros i; [reflexivity |].
  cbn [col_search search]. destruct (cell tb 0 i) as [h | e]; [| reflexivity].
  cbn [res_bind]. now rewrite IH.
Qed.

(** A scan that returns gives the sentinel or an index it visited whose
    cell is the name. *)
Lemma search_sound look name count :
  forall i0 i,
    search look name count i0 = Ok i ->
    i = -1 \/ (i0 <= i < i0 + Z.of_nat count /\ look i = Ok name).
Proof.
  induction count as [| c IH]; intros i0 i; cbn [search].
  - intros [= <-]. now left.
  - destruct (look i0) as [h | e] eqn:E; [| discriminate]. cbn [res_bind].
    destruct (String.eqb_spec h name) as [-> | _].
    + intros [= <-]. right. split; [lia | exact E].
    + intros H. apply IH in H as [-> | (B & L)]; [now left |].
      right. split; [lia | exact L].
Qed.

(** A scan that reaches a cell with the name, over cells that can all be
    read, returns the first index whose cell is the name. *)
Lemma search_first look name count :
  forall i0 k0,
    i0 <= k0 < i0 + Z.of_nat count ->
    look k0 = Ok name ->
    (forall k, i0 <= k < k0 -> exists h, look k = Ok h) ->
    exists i,
      search look name count i0 = Ok i
      /\ i0 <= i <= k0 /\ look i = Ok name
      /\ (forall k, i0 <= k < i -> look k <> Ok name).
Proof.
  induction count as [| c IH]; intros i0 k0 B Hk Hread; [lia |].
  cbn [search].
  destruct (Z.eq_dec i0 k0) as [-> | Hne].
  - rewrite Hk. cbn [res_bind]. rewrite String.eqb_refl.
    exists k0. repeat split; auto; lia.
  - destruct (Hread i0 ltac:(lia)) as (h & Eh). rewrite Eh. cbn [res_bind].
    destruct (String.eqb_spec h name) as [-> | Hh].
    + exists i0. repeat split; auto; lia.
    + destruct (IH (i0 + 1) k0) as (i & Es & Bi & Li & Fi); auto; [lia | |].
      { intros k Hk'. apply Hread. lia. }
      exists i. repeat split; auto; try lia.
      intros k Hk'. destruct (Z.eq_dec k i0) as [-> | ?].
      * rewrite Eh. congruence.
      * apply Fi. lia.
Qed.

(** X13.  On every table, a name lookup that returns gives either the
    sentinel -1 or a data index, from 1 up to the number of rows (columns),
    whose header cell is the name. *)
Theorem lookup_sound (tb : Table.t) (name : string) (i : Z) :
  (get_row_from_name tb name = Ok i ->
   i = -1 \/ (1 <= i <= get_num_rows tb /\ get_row_name tb i = Ok name))
  /\ (get_col_from_name tb name = Ok i ->
      i = -1 \/ (1 <= i <= get_num_cols tb /\ get_col_name tb i = Ok name)).
Proof.
  split.
  - unfold get_row_from_name. rewrite row_search_search. intros H.
    apply search_sound in H as [-> | (B & L)]; [now left |].
    right. split; [unfold get_num_rows; lia | exact L].
  - unfold get_col_from_name. destruct tb as [| header rows]; [discriminate |].
    change (getitem (header :: rows) 0) with (Ok header). cbn [res_bind].
    rewrite col_search_search. intros H.
    apply search_sound in H as [-> | (B & L)]; [now left |].
    right. split; [cbn [get_num_cols]; lia | exact L].
Qed.

Lemma lookup_sound_witness :
  let tb := [[""; "A"; "B"]; ["r1"; "1"; "2"]; ["r2"; "3"; "4"]]%string in
  (2 = -1 \/ (1 <= 2 <= get_num_rows tb /\ get_row_name tb 2 = Ok "r2"%string))
  /\ (1 = -1 \/ (1 <= 1 <= get_num_cols tb /\ get_col_name tb 1 = Ok "A"%string)).
Proof.
  intros tb. split.
  - apply (proj1 (lookup_sound tb "r2" 2)). reflexivity.
  - apply (proj2 (lookup_sound tb "A" 1)). reflexivity.
Defined.

(** X14.  If row [k0] carries the name and the rows before it have a name
    cell, [get_row_from_name] returns the first row that carries the name;
    that is [k0] itself when no earlier row carries it, so the name of a row
    leads back to its index. *)
Theorem row_lookup_first (tb : Table.t) (name : string) (k0 : Z) :
  1 <= k0 <= get_num_rows tb ->
  get_row_name tb k0 = Ok name ->
  (forall k, 1 <= k < k0 -> exists h, get_row_name tb k = Ok h) ->
  exists i,
    get_row_from_name tb name = Ok i
    /\ 1 <= i <= k0 /\ get_row_name tb i = Ok name
    /\ (forall k, 1 <= k < i -> get_row_name tb k <> Ok name)
    /\ ((forall k, 1 <= k < k0 -> get_row_name tb k <> Ok name) -> i = k0).
Proof.
  intros B Hk Hread. unfold get_row_from_name. rewrite row_search_search.
  destruct (search_first (fun k => cell tb k 0) name
              (Z.to_nat (len tb - 1)) 1 k0) as (i & Es & Bi & Li & Fi); auto.
  { unfold get_num_rows in B. lia. }
  exists i. repeat split; auto; try lia.
  intros Hd. destruct (Z.eq_dec i k0) as [-> | Hne]; [reflexivity |].
  exfalso. apply (Hd i); [lia | exact Li].
Qed.

Lemma row_lookup_first_witness :
  let tb := [["Name"; "Num"]; ["Orc"; "3d10"]; ["Elf"; "2d6"]; ["Orc"; "1"]]%string in
  exists i,
    get_row_from_name tb "Elf" = Ok i
    /\ 1 <= i <= 2 /\ get_row_name tb i = Ok "Elf"%string
    /\ (forall k, 1 <= k < i -> get_row_name tb k <> Ok "Elf"%string)
    /\ ((forall k, 1 <= k < 2 -> get_row_name tb k <> Ok "Elf"%string) -> i = 2).
Proof.
  intros tb. apply (row_lookup_first tb "Elf" 2).
  - cbn. lia.
  - reflexivity.
  - intros k Hk. assert (k = 1) as -> by lia. now exists "Orc"%string.
Defined.

Lemma header_cell tb k :
  1 <= k <= get_num_cols tb -> exists h, get_col_name tb k = Ok h.
Proof.
  intros B. destruct tb as [| header rows]; [cbn in B; lia |].
  cbn [get_num_cols] in B. unfold get_col_name. rewrite cell_header.
  destruct (getitem_tail header k) as (h & E & _); [lia |]. eauto.
Qed.

(** X15.  If column [k0] carries the name, [get_col_from_name] returns the
    first column that carries it; that is [k0] itself when no earlier column
    carries it. *)
Theorem col_lookup_first (tb : Table.t) (name : string) (k0 : Z) :
  1 <= k0 <= get_num_cols tb ->
  get_col_name tb k0 = Ok name ->
  exists i,
    get_col_from_name tb name = Ok i
    /\ 1 <= i <= k0 /\ get_col_name tb i = Ok name
    /\ (forall k, 1 <= k < i -> get_col_name tb k <> Ok name)
    /\ ((forall k, 1 <= k < k0 -> get_col_name tb k <> Ok name) -> i = k0).
Proof.
  intros B Hk. unfold get_col_from_name.
  destruct tb as [| header rows] eqn:Etb; [cbn in B; lia |].
  change (getitem (header :: rows) 0) with (Ok header). cbn [res_bind].
  rewrite col_search_search.
  destruct (search_first (fun k => cell (header :: rows) 0 k) name
              (Z.to_nat (len header - 1)) 1 k0) as (i & Es & Bi & Li & Fi); auto.
  { cbn [get_num_cols] in B. lia. }
  { intros k Hk'. apply (header_cell (header :: rows)). lia. }
  exists i. repeat split; auto; try lia.
  intros Hd. destruct (Z.eq_dec i k0) as [-> | Hne]; [reflexivity |].
  exfalso. apply (Hd i); [lia | exact Li].
Qed.

Lemma col_lookup_first_witness :
  let tb := [[""; "Plains"; "Woods"; "River"]; ["1"; "Men"; "Animals"; "Men"]]%string in
  exists i,
    get_col_from_name tb "River" = Ok i
    /\ 1 <= i <= 3 /\ get_col_name tb i = Ok "River"%string
    /\ (forall k, 1 <= k < i -> get_col_name tb k <> Ok "River"%string)
    /\ ((forall k, 1 <= k < 3 -> get_col_name tb k <> Ok "River"%string) -> i = 3).
Proof.
  intros tb. apply (col_lookup_first tb "River" 3); [cbn; lia | reflexivity].
Defined.

End Lookup.

(* ================================================================== *)
(** * More on tables: rejection sampling *)

Section Sampling.

Import Py Table.

Lemma draw_at_advance w sides i :
  draw_at (advance w 1) sides i = draw_at w sides (S i).
Proof. unfold draw_at, advance. cbn [tape pos]. f_equal. f_equal. lia. Qed.

Lemma row_attempts_hit tb index v k :
  1 <= get_num_cols tb -> v <> NULL_ENTRY ->
  forall n w,
    (k < n)%nat ->
    (forall i, (i < k)%nat ->
               cell tb index (draw_at w (get_num_cols tb) i) = Ok NULL_ENTRY) ->
    cell tb index (draw_at w (get_num_cols tb) k) = Ok v ->
    row_attempts tb index n w = (Ok v, advance w (S k)).
Proof.
  intros Hc Hv. induction k as [| k IH]; intros n w Hn Hnull Hhit;
    (destruct n as [| n]; [lia |]);
    rewrite row_attempts_S; unfold bind, lift; rewrite roll_ok by assumption;
    change (Dice.die (tape w (pos w)) (get_num_cols tb))
      with (draw_at w (get_num_cols tb) 0).
  - rewrite Hhit. destruct (String.eqb_spec v NULL_ENTRY); [contradiction | reflexivity].
  - rewrite (Hnull O) by lia. rewrite String.eqb_refl. cbn [negb].
    rewrite (IH n (advance w 1)); [now rewrite advance_advance | lia | |].
    + intros i Hi. rewrite draw_at_advance. apply Hnull. lia.
    + now rewrite draw_at_advance.
Qed.

Lemma col_attempts_hit tb index v k :
  1 <= get_num_rows tb -> v <> NULL_ENTRY ->
  forall n w,
    (k < n)%nat ->
    (forall i, (i < k)%nat ->
               cell tb (draw_at w (get_num_rows tb) i) index = Ok NULL_ENTRY) ->
    cell tb (draw_at w (get_num_rows tb) k) index = Ok v ->
    col_attempts tb index n w = (Ok v, advance w (S k)).
Proof.
  intros Hc Hv. induction k as [| k IH]; intros n w Hn Hnull Hhit;
    (destruct n as [| n]; [lia |]);
    rewrite col_attempts_S; unfold bind, lift; rewrite roll_ok by assumption;
    change (Dice.die (tape w (pos w)) (get_num_rows tb))
      with (draw_at w (get_num_rows tb) 0).
  - rewrite Hhit. destruct (String.eqb_spec v NULL_ENTRY); [contradiction | reflexivity].
  - rewrite (Hnull O) by lia. rewrite String.eqb_refl. cbn [negb].
    rewrite (IH n (advance w 1)); [now rewrite advance_advance | lia | |].
    + intros i Hi. rewrite draw_at_advance. apply Hnull. lia.
    + now rewrite draw_at_advance.
Qed.

(** X16.  Rejection sampling returns the first draw that does not land on a
    null marker: if the first [k] draws ([k < 1000]) designate null cells of
    the row (column) and the next one designates the cell [v], the search
    returns [v] after [k + 1] draws. *)
Theorem random_entry_first_hit (tb : Table.t) (index : Z) (w : world) (k : nat) (v : string) :
  (k < 1000)%nat -> v <> NULL_ENTRY ->
  (1 <= get_num_cols tb ->
   (forall i, (i < k)%nat ->
      get_entry tb index (draw_at w (get_num_cols tb) i) = Ok NULL_ENTRY) ->
   get_entry tb index (draw_at w (get_num_cols tb) k) = Ok v ->
   get_random_entry_on_row tb index w = (Ok v, advance w (S k)))
  /\ (1 <= get_num_rows tb ->
      (forall i, (i < k)%nat ->
         get_entry tb (draw_at w (get_num_rows tb) i) index = Ok NULL_ENTRY) ->
      get_entry tb (draw_at w (get_num_rows tb) k) index = Ok v ->
      get_random_entry_on_col tb index w = (Ok v, advance w (S k))).
Proof.
  intros Hk Hv. split; intros Hc Hnull Hhit.
  - now apply (row_attempts_hit tb index v k Hc Hv).
  - now apply (col_attempts_hit tb index v k Hc Hv).
Qed.

Lemma random_entry_first_hit_witness :
  let tb := [[""; "A"; "B"; "C"]; ["r1"; "-"; "x"; "-"]]%string in
  get_random_entry_on_row tb 1 (script [3; 1; 2; 2])
  = (Ok "x"%string, advance (script [3; 1; 2; 2]) 3).
Proof.
  intros tb.
  apply (proj1 (random_entry_first_hit tb 1 (script [3; 1; 2; 2]) 2 "x"
                  ltac:(lia) ltac:(discriminate))).
  - cbn. lia.
  - intros i Hi. assert (i = 0 \/ i = 1)%nat as [-> | ->] by lia; reflexivity.
  - reflexivity.
Defined.

(** X17.  A table without data columns (rows), the empty table among them,
    makes the search along a row (column) raise the [ValueError] of the
    generator before anything is drawn; a row index past the last row raises
    [IndexError] after the first draw. *)
Theorem random_entry_bad_table (tb : Table.t) (index : Z) (w : world) :
  (get_num_cols tb < 1 ->
   get_random_entry_on_row tb index w
   = (Raise (ValueError "empty range for randrange()"), w))
  /\ (get_num_rows tb < 1 ->
      get_random_entry_on_col tb index w
      = (Raise (ValueError "empty range for randrange()"), w))
  /\ (1 <= get_num_cols tb -> get_num_rows tb < index ->
      get_random_entry_on_row tb index w
      = (Raise (IndexError "list index out of range"), advance w 1)).
Proof.
  repeat split.
  - intros H. unfold get_random_entry_on_row, max_attempts.
    rewrite row_attempts_S. unfold bind. now rewrite roll_empty_range.
  - intros H. unfold get_random_entry_on_col, max_attempts.
    rewrite col_attempts_S. unfold bind. now rewrite roll_empty_range.
  - intros Hc Hi. unfold get_random_entry_on_row, max_attempts.
    rewrite row_attempts_S. unfold bind, lift. rewrite roll_ok by assumption.
    unfold cell. unfold get_num_rows in Hi.
    assert (0 < len tb) by (destruct tb; [cbn in Hc; lia | unfold len; cbn; lia]).
    rewrite getitem_nonneg by lia.
    assert (E : nth_error tb (Z.to_nat index) = None)
      by (apply nth_error_None; unfold len in *; lia).
    now rewrite E.
Qed.

Lemma random_entry_bad_table_witness :
  get_random_entry_on_row [] 1 (script [])
  = (Raise (ValueError "empty range for randrange()"), script [])
  /\ get_random_entry_on_col [[""; "A"]]%string 1 (script [])
     = (Raise (ValueError "empty range for randrange()"), script [])
  /\ get_random_entry_on_row [[""; "A"]; ["r1"; "x"]]%string 2 (script [])
     = (Raise (IndexError "list index out of range"), advance (script []) 1).
Proof.
  split; [| split].
  - apply (proj1 (random_entry_bad_table [] 1 (script []))). cbn. lia.
  - apply (proj1 (proj2 (random_entry_bad_table [[""; "A"]]%string 1 (script [])))).
    cbn. lia.
  - apply (proj2 (proj2 (random_entry_bad_table [[""; "A"]; ["r1"; "x"]]%string 2 (script []))));
      cbn; lia.
Defined.

Lemma getitem_in_range {A} (l : list A) i :
  0 <= i < len l -> exists a, getitem l i = Ok a /\ In a l.
Proof.
  intros B. rewrite getitem_nonneg by lia.
  destruct (nth_error l (Z.to_nat i)) as [a |] eqn:E.
  - exists a. split; [reflexivity | eapply nth_error_In, E].
  - apply nth_error_None in E. unfold len in B. lia.
Qed.

(** Every cell of a rectangular table can be read. *)
Lemma cell_rectangular tb row col :
  rectangular tb ->
  0 <= row <= get_num_rows tb -> 0 <= col <= get_num_cols tb ->
  exists v, cell tb row col = Ok v.
Proof.
  intros R Hr Hc. unfold cell.
  destruct (getitem_in_range tb row) as (r & -> & Hin);
    [unfold get_num_rows in Hr; lia |].
  cbn [res_bind]. specialize (R r Hin).
  destruct tb as [| header rows]; [contradiction |].
  cbn [hd] in R. cbn [get_num_cols] in Hc.
  destruct (getitem_in_range r col) as (v & -> & _); [lia | eauto].
Qed.

Lemma row_attempts_outcome tb index :
  rectangular tb -> 1 <= get_num_cols tb -> 0 <= index <= get_num_rows tb ->
  forall n w,
    (exists v w', row_attempts tb index n w = (Ok v, w'))
    \/ row_attempts tb index n w = (Raise (exhausted "row" index), advance w n).
Proof.
  intros R Hc Hi. induction n as [| n IH]; intros w.
  - right. cbn. now rewrite advance_0.
  - rewrite row_attempts_S. unfold bind, lift. rewrite roll_ok by assumption.
    pose proof (die_range (tape w (pos w)) _ Hc) as Hj.
    destruct (cell_rectangular tb index
                (Dice.die (tape w (pos w)) (get_num_cols tb)) R Hi ltac:(lia))
      as (v & ->).
    destruct (negb (String.eqb v NULL_ENTRY)); [left; unfold ret; eauto |].
    destruct (IH (advance w 1)) as [H | H]; [now left |].
    right. now rewrite H, advance_advance.
Qed.

Lemma col_attempts_outcome tb index :
  rectangular tb -> 1 <= get_num_rows tb -> 0 <= index <= get_num_cols tb ->
  forall n w,
    (exists v w', col_attempts tb index n w = (Ok v, w'))
    \/ col_attempts tb index n w = (Raise (exhausted "column" index), advance w n).
Proof.
  intros R Hc Hi. induction n as [| n IH]; intros w.
  - right. cbn. now rewrite advance_0.
  - rewrite col_attempts_S. unfold bind, lift. rewrite roll_ok by assumption.
    pose proof (die_range (tape w (pos w)) _ Hc) as Hj.
    destruct (cell_rectangular tb
                (Dice.die (tape w (pos w)) (get_num_rows tb)) index R ltac:(lia) Hi)
      as (v & ->).
    destruct (negb (String.eqb v NULL_ENTRY)); [left; unfold ret; eauto |].
    destruct (IH (advance w 1)) as [H | H]; [now left |].
    right. now rewrite H, advance_advance.
Qed.

(** X18.  On a rectangular table with data cells and for an index inside
    the table, a search has only two outcomes: it returns an entry, or it
    raises the error of the exhausted attempts after exactly 1000 draws; it
    raises neither [IndexError] nor the [ValueError] of the generator. *)
Theorem random_entry_outcomes (tb : Table.t) (index : Z) (w : world) :
  rectangular tb -> 1 <= get_num_rows tb -> 1 <= get_num_cols tb ->
  (0 <= index <= get_num_rows tb ->
   (exists v w', get_random_entry_on_row tb index w = (Ok v, w'))
   \/ get_random_entry_on_row tb index w
      = (Raise (exhausted "row" index), advance w 1000))
  /\ (0 <= index <= get_num_cols tb ->
      (exists v w', get_random_entry_on_col tb index w = (Ok v, w'))
      \/ get_random_entry_on_col tb index w
         = (Raise (exhausted "column" index), advance w 1000)).
Proof.
  intros R Hr Hc. split; intros Hi.
  - now apply row_attempts_outcome.
  - now apply col_attempts_outcome.
Qed.

Lemma random_entry_outcomes_witness :
  let tb := [[""; "A"; "B"]; ["r1"; "-"; "x"]]%string in
  (exists v w', get_random_entry_on_row tb 1 (script [1; 2]) = (Ok v, w'))
  \/ get_random_entry_on_row tb 1 (script [1; 2])
     = (Raise (exhausted "row" 1), advance (script [1; 2]) 1000).
Proof.
  intros tb.
  apply (proj1 (random_entry_outcomes tb 1 (script [1; 2])
                  ltac:(intros r [<- | [<- | []]]; reflexivity)
                  ltac:(cbn; lia) ltac:(cbn; lia))).
  cbn. lia.
Defined.

End Sampling.

(* ================================================================== *)
(** * More on the resolution: fixups, NPCs and the database *)

Section Fixups.

Import Py Dice Table Sim.

(** X19.  [sub_table_fixup] changes no name but ["Men"], never returns
    ["Men"], and applying it again changes nothing. *)
Theorem sub_table_fixup_idempotent (table sub : string) :
  (sub <> "Men"%string -> sub_table_fixup table sub = sub)
  /\ sub_table_fixup table sub <> "Men"%string
  /\ sub_table_fixup table (sub_table_fixup table sub) = sub_table_fixup table sub.
Proof.
  unfold sub_table_fixup at 1 2 4 5.
  destruct (String.eqb_spec sub "Men") as [-> | Hne].
  - split; [congruence |].
    destruct (String.eqb table "Mountain"), (String.eqb table "Desert"),
      (String.eqb table "River"); split; solve [discriminate | reflexivity].
  - repeat split; auto. unfold sub_table_fixup.
    destruct (String.eqb_spec sub "Men"); [contradiction | reflexivity].
Qed.

Lemma sub_table_fixup_idempotent_witness :
  sub_table_fixup "River" "Animals" = "Animals"%string.
Proof.
  apply (proj1 (sub_table_fixup_idempotent "River" "Animals")). discriminate.
Defined.

(** X20.  [monster_fixup] never raises and draws at most once (only for
    ["Giant"] and ["Dragon"]); the name it returns is none of the generic
    names, and fixing it again returns it unchanged without a draw.  A name
    that is not generic is returned as it is. *)
Theorem monster_fixup_specific (mon_name : string) (w : world) :
  exists fixed k,
    monster_fixup mon_name w = (Ok fixed, advance w k)
    /\ (k <= 1)%nat
    /\ ~ In fixed generic_names
    /\ monster_fixup fixed (advance w k) = (Ok fixed, advance w k)
    /\ (~ In mon_name generic_names -> fixed = mon_name /\ k = O).
Proof.
  destruct (String.eqb_spec mon_name "Giant") as [-> | N1].
  { pose proof (die_range (tape w (pos w)) 10 ltac:(lia)) as R.
    unfold monster_fixup. cbn [String.eqb Ascii.eqb Bool.eqb andb]. cbv iota.
    unfold bind. rewrite roll_ok by lia.
    set (r := die (tape w (pos w)) 10) in *.
    destruct (Z.leb_spec r 6);
      [| destruct (Z.eqb_spec r 7);
         [| destruct (Z.eqb_spec r 8);
            [| destruct (Z.eqb_spec r 9);
               [| destruct (Z.eqb_spec r 10); [| lia]]]]];
      eexists; exists 1%nat; (split; [reflexivity |]);
      (split; [lia |]); (split; [cbn; intuition discriminate |]);
      (split; [rewrite <- (advance_0 (advance w 1)) at 2; reflexivity |]);
      intros Hgen; exfalso; apply Hgen; cbn; auto. }
  destruct (String.eqb_spec mon_name "Dragon") as [-> | N2].
  { pose proof (die_range (tape w (pos w)) 6 ltac:(lia)) as R.
    unfold monster_fixup, dragon_subtype.
    cbn [String.eqb Ascii.eqb Bool.eqb andb]. cbv iota.
    unfold bind. rewrite roll_ok by lia.
    set (r := die (tape w (pos w)) 6) in *.
    destruct (Z.eqb_spec r 1);
      [| destruct (Z.eqb_spec r 2);
         [| destruct (Z.eqb_spec r 3);
            [| destruct (Z.eqb_spec r 4);
               [| destruct (Z.eqb_spec r 5);
                  [| destruct (Z.eqb_spec r 6); [| lia]]]]]];
      eexists; exists 1%nat; (split; [reflexivity |]);
      (split; [lia |]); (split; [cbn; intuition discriminate |]);
      (split; [rewrite <- (advance_0 (advance w 1)) at 2; reflexivity |]);
      intros Hgen; exfalso; apply Hgen; cbn; auto. }
  assert (E : monster_fixup mon_name w = (Ok (specific_animal mon_name), advance w 0)).
  { unfold monster_fixup, dragon_subtype.
    destruct (String.eqb_spec mon_name "Giant"); [contradiction |].
    destruct (String.eqb_spec mon_name "Dragon"); [contradiction |].
    now rewrite advance_0. }
  exists (specific_animal mon_name), O. split; [exact E |]. split; [lia |].
  rewrite advance_0.
  unfold specific_animal.
  destruct (String.eqb_spec mon_name "Giant Snake") as [-> | N3];
    [split; [cbn; intuition discriminate
            | split; [reflexivity | intros Hgen; exfalso; apply Hgen; cbn; auto 10]] |].
  destruct (String.eqb_spec mon_name "Giant Beetle") as [-> | N4];
    [split; [cbn; intuition discriminate
            | split; [reflexivity | intros Hgen; exfalso; apply Hgen; cbn; auto 10]] |].
  destruct (String.eqb_spec mon_name "Giant Ant") as [-> | N5];
    [split; [cbn; intuition discriminate
            | split; [reflexivity | intros Hgen; exfalso; apply Hgen; cbn; auto 10]] |].
  destruct (String.eqb_spec mon_name "Sea Monster") as [-> | N6];
    [split; [cbn; intuition discriminate
            | split; [reflexivity | intros Hgen; exfalso; apply Hgen; cbn; auto 10]] |].
  destruct (String.eqb_spec mon_name "Hydra") as [-> | N7];
    [split; [cbn; intuition discriminate
            | split; [reflexivity | intros Hgen; exfalso; apply Hgen; cbn; auto 10]] |].
  destruct (String.eqb_spec mon_name "Roc") as [-> | N8];
    [split; [cbn; intuition discriminate
            | split; [reflexivity | intros Hgen; exfalso; apply Hgen; cbn; auto 10]] |].
  split; [cbn; intuition congruence |]. split; [| auto].
  unfold monster_fixup, dragon_subtype, specific_animal.
  repeat match goal with
         | |- context [String.eqb mon_name ?c] =>
             destruct (String.eqb_spec mon_name c); [contradiction |]
         end.
  reflexivity.
Qed.

Lemma monster_fixup_specific_witness :
  exists fixed k,
    monster_fixup "Dragon" (script [5]) = (Ok fixed, advance (script [5]) k)
    /\ (k <= 1)%nat
    /\ ~ In fixed generic_names
    /\ monster_fixup fixed (advance (script [5]) k) = (Ok fixed, advance (script [5]) k)
    /\ (~ In "Dragon"%string generic_names -> fixed = "Dragon"%string /\ k = O).
Proof. apply (monster_fixup_specific "Dragon" (script [5])). Defined.

Lemma npc_level_cases name :
  npc_level name = 0 \/ 8 <= npc_level name <= 11.
Proof.
  unfold npc_level.
  repeat match goal with
         | |- context [String.eqb name ?c] => destruct (String.eqb name c)
         end; lia.
Qed.

(** X21.  [handle_npc_type] never raises.  For a name that is not an NPC
    type it returns 0 and draws nothing; otherwise the level is between 8 and
    11, between 4 and 14 dice are drawn, and the value lies between the level
    plus 2 and the level plus 48, so it is positive. *)
Theorem npc_value_bounds (type_name : string) (w : world) :
  exists v k,
    handle_npc_type type_name w = (Ok v, advance w k)
    /\ ((npc_level type_name = 0 /\ v = 0 /\ k = O)
        \/ (8 <= npc_level type_name <= 11
            /\ npc_level type_name + 2 <= v <= npc_level type_name + 48
            /\ (4 <= k <= 14)%nat)).
Proof.
  destruct (npc_level_cases type_name) as [H0 | H8].
  - exists 0, O. rewrite advance_0. split; [now apply handle_npc_type_other | now left].
  - unfold handle_npc_type.
    destruct (Z.eqb_spec (npc_level type_name) 0) as [E0 | Hnz]; [lia |].
    unfold bind. rewrite get_npc_entourage_spec.
    pose proof (die_range (tape w (pos w)) 6 ltac:(lia)) as R1.
    pose proof (die_range (tape w (S (pos w))) 6 ltac:(lia)) as R2.
    set (n := Z.to_nat (die (tape w (pos w)) 6 + die (tape w (S (pos w))) 6)).
    pose proof (sum_draws_bounds (tape w) (2 + pos w) n 4 ltac:(lia)) as B.
    do 2 eexists. split; [reflexivity |]. right. subst n. lia.
Qed.

End Fixups.

(* ================================================================== *)
(** * More on the resolution: the monster database *)

Section Database.

Import Py Dice Table Sim.

(** X22.  When the monster is found and its hit-dice-number cell parses to
    a float that is not [<= 1.0] (a larger number, or [nan]), the total is
    the rolled count times the effective difficulty, without the division. *)
Theorem no_sweep_correction
    (self : Sim.t) (name : string) (w : world) (i : Z)
    (num_cell ehd_cell hdn_cell : string) (x : spec_float) :
  npc_level name = 0 ->
  get_row_from_name (monster_table self) name = Ok i -> 1 <= i ->
  get_entry (monster_table self) i MONSTER_NUM_COL = Ok num_cell ->
  get_entry (monster_table self) i MONSTER_EHD_COL = Ok ehd_cell ->
  get_entry (monster_table self) i MONSTER_HDN_COL = Ok hdn_cell ->
  Py.float hdn_cell = Some x -> float_le x one = false ->
  exists d count w1,
    _parse_string num_cell = Ok d
    /\ roll_dice d w = (Ok count, w1)
    /\ fst (roll_encounter_by_monster self name w)
       = Ok (count * ehd_fixup name (str_to_int ehd_cell)).
Proof.
  intros Hn Hi Hi1 Hnum Hehd Hhdn Hx Hle.
  destruct (_parse_string_total num_cell) as (d & Hd).
  destruct (roll_encounter_known_monster self name w i _ _ _ d Hn Hi Hi1 Hnum Hehd Hhdn Hd)
    as (Hroll & Hres).
  do 3 eexists. split; [exact Hd |]. split; [exact Hroll |].
  rewrite Hres. unfold str_to_dbl. rewrite Hx, Hle. reflexivity.
Qed.

Lemma no_sweep_correction_witness :
  (exists d count w1,
      _parse_string "1" = Ok d
      /\ roll_dice d (script []) = (Ok count, w1)
      /\ fst (roll_encounter_by_monster plains_sim "Wolf" (script []))
         = Ok (count * ehd_fixup "Wolf" (str_to_int "10")))
  /\ roll_encounter_by_monster plains_sim "Wolf" (script []) = (Ok 10, script []).
Proof.
  split; [| reflexivity].
  apply (no_sweep_correction plains_sim "Wolf" (script []) 1 "1" "10" "2"
           (S754_finite false 4503599627370496 (-51)));
    solve [reflexivity | lia].
Defined.

(** X23.  When the monster is found, is not the gold dragon, and its
    effective-difficulty cell is not an integer other than 0, the resolution
    prints the null-EHD warning and returns 0, whatever the other cells
    hold. *)
Theorem null_ehd_reported
    (self : Sim.t) (name : string) (w : world) (i : Z)
    (num_cell ehd_cell hdn_cell : string) :
  npc_level name = 0 ->
  get_row_from_name (monster_table self) name = Ok i -> 1 <= i ->
  get_entry (monster_table self) i MONSTER_NUM_COL = Ok num_cell ->
  get_entry (monster_table self) i MONSTER_EHD_COL = Ok ehd_cell ->
  get_entry (monster_table self) i MONSTER_HDN_COL = Ok hdn_cell ->
  str_to_int ehd_cell = 0 -> name <> "Dragon, Gold"%string ->
  exists d,
    _parse_string num_cell = Ok d
    /\ roll_encounter_by_monster self name w
       = (Ok 0, logged (advance w (Z.to_nat (number d)))
                  ("Monster with null EHD: " ++ name)).
Proof.
  intros Hn Hi Hi1 Hnum Hehd Hhdn Hz Hg.
  destruct (_parse_string_total num_cell) as (d & Hd).
  destruct (roll_encounter_known_monster self name w i _ _ _ d Hn Hi Hi1 Hnum Hehd Hhdn Hd)
    as (_ & Hres).
  exists d. split; [exact Hd |]. rewrite Hres.
  assert (E : ehd_fixup name (str_to_int ehd_cell) = 0).
  { unfold ehd_fixup. rewrite Hz. cbn [Z.eqb].
    destruct (String.eqb_spec name "Dragon, Gold"); [contradiction | reflexivity]. }
  rewrite E, Z.mul_0_r. cbn [Z.eqb].
  now destruct (float_le (str_to_dbl hdn_cell) one).
Qed.

Lemma null_ehd_reported_witness :
  exists d,
    _parse_string "2d4" = Ok d
    /\ roll_encounter_by_monster plains_sim "Shade" (script [3; 1])
       = (Ok 0, logged (advance (script [3; 1]) (Z.to_nat (number d)))
                  "Monster with null EHD: Shade").
Proof.
  apply (null_ehd_reported plains_sim "Shade" (script [3; 1]) 3 "2d4" "n/a" "nan");
    solve [reflexivity | lia | discriminate].
Defined.

(** X24.  For the gold dragon a null effective difficulty is replaced by
    40: the total is 40 times the rolled count (floor-divided by 4 when the
    hit-dice number is [<= 1.0]) and no warning is printed. *)
Theorem gold_dragon_ehd
    (self : Sim.t) (w : world) (i : Z) (num_cell ehd_cell hdn_cell : string) :
  get_row_from_name (monster_table self) "Dragon, Gold" = Ok i -> 1 <= i ->
  get_entry (monster_table self) i MONSTER_NUM_COL = Ok num_cell ->
  get_entry (monster_table self) i MONSTER_EHD_COL = Ok ehd_cell ->
  get_entry (monster_table self) i MONSTER_HDN_COL = Ok hdn_cell ->
  str_to_int ehd_cell = 0 ->
  exists d count,
    _parse_string num_cell = Ok d
    /\ roll_dice d w = (Ok count, advance w (Z.to_nat (number d)))
    /\ roll_encounter_by_monster self "Dragon, Gold" w
       = (Ok (if float_le (str_to_dbl hdn_cell) one then count * 40 / 4 else count * 40),
          advance w (Z.to_nat (number d))).
Proof.
  intros Hi Hi1 Hnum Hehd Hhdn Hz.
  destruct (_parse_string_total num_cell) as (d & Hd).
  destruct (roll_encounter_known_monster self "Dragon, Gold" w i _ _ _ d
              eq_refl Hi Hi1 Hnum Hehd Hhdn Hd) as (Hroll & Hres).
  do 2 eexists. split; [exact Hd |]. split; [exact Hroll |].
  rewrite Hres, Hz. reflexivity.
Qed.

Lemma gold_dragon_ehd_witness :
  exists d count,
    _parse_string "d2" = Ok d
    /\ roll_dice d (script [2]) = (Ok count, advance (script [2]) (Z.to_nat (number d)))
    /\ roll_encounter_by_monster plains_sim "Dragon, Gold" (script [2])
       = (Ok (if float_le (str_to_dbl "12") one then count * 40 / 4 else count * 40),
          advance (script [2]) (Z.to_nat (number d))).
Proof.
  apply (gold_dragon_ehd plains_sim (script [2]) 2 "d2" "" "12");
    solve [reflexivity | lia].
Defined.

End Database.

(* ================================================================== *)
(** * The whole resolution and the driver *)

Section Driver.

Import Py Dice Table Sim.

(** X25.  The terrain resolution chains the two samplings and the fixups:
    when, after [k1] rejected draws, the terrain column yields [s], the
    fixed-up name of [s] is column [c] of the subtable, and that column
    yields [m] after [k2] rejected draws, the outcome is that of resolving
    the fixed-up monster name of [m], started after [k1 + k2 + 2] draws. *)
Theorem terrain_pipeline
    (self : Sim.t) (w : world) (k1 k2 : nat) (s m : string) (c : Z) :
  (k1 < 1000)%nat -> (k2 < 1000)%nat ->
  s <> NULL_ENTRY -> m <> NULL_ENTRY ->
  1 <= get_num_rows (main_table self) ->
  (forall i, (i < k1)%nat ->
     get_entry (main_table self) (draw_at w (get_num_rows (main_table self)) i)
       (terrain_index self) = Ok NULL_ENTRY) ->
  get_entry (main_table self) (draw_at w (get_num_rows (main_table self)) k1)
    (terrain_index self) = Ok s ->
  get_col_from_name (sub_table self) (sub_table_fixup (terrain self) s) = Ok c ->
  1 <= c -> 1 <= get_num_rows (sub_table self) ->
  (forall i, (i < k2)%nat ->
     get_entry (sub_table self)
       (draw_at (advance w (S k1)) (get_num_rows (sub_table self)) i) c
     = Ok NULL_ENTRY) ->
  get_entry (sub_table self)
    (draw_at (advance w (S k1)) (get_num_rows (sub_table self)) k2) c = Ok m ->
  roll_encounter_by_terrain self w
  = bind (monster_fixup m) (roll_encounter_by_monster self)
      (advance w (S k1 + S k2)).
Proof.
  intros Hk1 Hk2 Hs Hm Hr1 Hn1 Hh1 Hc Hc1 Hr2 Hn2 Hh2.
  unfold roll_encounter_by_terrain, bind at 1. unfold get_random_entry_on_col.
  rewrite (col_attempts_hit _ _ s k1 Hr1 Hs max_attempts w Hk1 Hn1 Hh1).
  unfold roll_encounter_by_sub_table, bind at 1. unfold lift. rewrite Hc.
  destruct (Z.ltb_spec c 1); [lia |].
  unfold bind at 1. unfold get_random_entry_on_col.
  rewrite (col_attempts_hit _ _ m k2 Hr2 Hm max_attempts _ Hk2 Hn2 Hh2).
  now rewrite advance_advance.
Qed.

Lemma terrain_pipeline_witness :
  roll_encounter_by_terrain plains_sim (script [])
  = bind (monster_fixup "Wolf") (roll_encounter_by_monster plains_sim)
      (advance (script []) 2)
  /\ roll_encounter_by_terrain plains_sim (script []) = (Ok 10, advance (script []) 2).
Proof.
  split; [| reflexivity].
  apply (terrain_pipeline plains_sim (script []) 0 0 "Animals" "Wolf" 1);
    solve [reflexivity | lia | discriminate | intros i Hi; lia].
Defined.

Lemma get_col_from_name_sound tb name i :
  get_col_from_name tb name = Ok i ->
  i = -1 \/ (1 <= i <= get_num_cols tb /\ get_col_name tb i = Ok name).
Proof.
  unfold get_col_from_name. destruct tb as [| header rows]; [discriminate |].
  change (getitem (header :: rows) 0) with (Ok header). cbn [res_bind].
  rewrite col_search_search. intros H.
  apply search_sound in H as [-> | (B & L)]; [now left |].
  right. split; [cbn [get_num_cols]; lia | exact L].
Qed.

(** X26.  When [parse_args] leaves [exit_after_args] unset, there was
    exactly one argument, it is the terrain, and the terrain index is a data
    column of the main table whose header is the terrain; the tables are
    untouched and nothing was drawn or printed. *)
Theorem parse_args_accepts (self self' : Sim.t) (args : list string) (w w' : world) :
  parse_args self args w = (Ok (self', false), w') ->
  args = [terrain self']
  /\ 1 <= terrain_index self' <= get_num_cols (main_table self)
  /\ get_col_name (main_table self) (terrain_index self') = Ok (terrain self')
  /\ main_table self' = main_table self
  /\ sub_table self' = sub_table self
  /\ monster_table self' = monster_table self
  /\ w' = w.
Proof.
  destruct args as [| arg [| arg2 rest]]; [discriminate | | discriminate].
  unfold parse_args, bind, lift.
  destruct (get_col_from_name (main_table self) arg) as [i | e] eqn:E; [| discriminate].
  destruct (Z.ltb_spec i 1) as [Hlt | Hge]; [discriminate |].
  intros [= <- <-]. cbn [terrain terrain_index main_table sub_table monster_table].
  apply get_col_from_name_sound in E as [-> | (B & L)]; [lia |].
  repeat split; auto; lia.
Qed.

Lemma parse_args_accepts_witness :
  [terrain plains_sim] = ["Plains"]%string
  /\ 1 <= terrain_index plains_sim <= get_num_cols (main_table plains_sim).
Proof.
  destruct (parse_args_accepts
              (Sim.mk (main_table plains_sim) (sub_table plains_sim)
                 (monster_table plains_sim) "" 0)
              plains_sim ["Plains"]%string (script []) (script []) eq_refl)
    as (H1 & H2 & _).
  split; [symmetry; exact H1 | exact H2].
Defined.

(** X27.  [parse_args] sets [exit_after_args] when the number of arguments
    is not one, changing nothing else; and, on a main table with a header
    row, when the one argument is not among the column headers: it then
    prints the unknown-terrain diagnostic and the terrain index is -1. *)
Theorem parse_args_rejects (self : Sim.t) (args : list string) (w : world) :
  (List.length args <> 1%nat -> parse_args self args w = (Ok (self, true), w))
  /\ (forall arg,
         args = [arg] -> main_table self <> [] ->
         ~ In arg (col_names (main_table self)) ->
         parse_args self args w
         = (Ok (Sim.mk (main_table self) (sub_table self) (monster_table self) arg (-1),
                true),
            logged w ("Unknown terrain: " ++ arg))).
Proof.
  split.
  - intros H. destruct args as [| arg [| arg2 rest]]; [reflexivity | | reflexivity].
    cbn in H. congruence.
  - intros arg -> Hne Hab. unfold parse_args, bind, lift.
    assert (L : get_col_from_name (main_table self) arg = Ok (-1)).
    { destruct (main_table self) as [| header rows]; [congruence |].
      now apply get_col_from_name_absent. }
    rewrite L. reflexivity.
Qed.

Lemma parse_args_rejects_witness :
  parse_args plains_sim ["Plains"; "Woods"]%string (script []) = (Ok (plains_sim, true), script [])
  /\ parse_args plains_sim ["Swamp"]%string (script [])
     = (Ok (Sim.mk (main_table plains_sim) (sub_table plains_sim)
              (monster_table plains_sim) "Swamp" (-1), true),
        logged (script []) "Unknown terrain: Swamp").
Proof.
  split.
  - apply (proj1 (parse_args_rejects plains_sim ["Plains"; "Woods"]%string (script []))).
    cbn. lia.
  - apply (proj2 (parse_args_rejects plains_sim ["Swamp"]%string (script [])) "Swamp"%string
             eq_refl).
    + discriminate.
    + cbn. intros [H | []]. discriminate.
Defined.






End Driver.
